(** * ctrade: position sizing, exit rules, regime parsing and news fusion

    A shallow embedding of the decision pipeline of the trading bot:
    - [risk_manager.py]   : [CostCalculator], [RiskManager]
    - [bot.py]            : [AITradingBot._check_exit_conditions]
    - [market_analyzer.py]: [MarketAnalyzer._parse_response]
    - [news_aggregator.py]: [NewsAggregator]

    Python [float] is IEEE-754 binary64; it is modelled by the kernel's
    primitive floats, whose operations are the same correctly rounded
    binary64 operations.  Python [int] is [Z].  A function that can raise
    returns a [result]. *)

From Stdlib Require Import ZArith String Ascii List Floats DecimalString Lia Bool.
From stdpp Require Import gmap strings list sorting.
Set Warnings "-inexact-float,-register-all".
Open Scope Z_scope.

(** ** Python values the code relies on *)

Module Py.

(** The exception classes that occur in the modelled code. *)
Inductive exn : Type :=
| ValueError (msg : string)
| OverflowError (msg : string)
| TypeError (msg : string)
| AttributeError (msg : string)
| KeyError (key : string)
| IndexError (msg : string)
| ZeroDivisionError (msg : string)
| JSONDecodeError (msg : string).

(** [str(e)] *)
Definition str_exn (e : exn) : string :=
  match e with
  | ValueError m | OverflowError m | TypeError m
  | AttributeError m | IndexError m | ZeroDivisionError m
| JSONDecodeError m => m
  | KeyError k => "'" +:+ k +:+ "'"
  end.

Inductive result (A : Type) : Type :=
| Return (a : A)
| Raise (e : exn).
Arguments Return {A} a.
Arguments Raise {A} e.

#[export] Instance result_ret : MRet result := fun A a => Return a.
#[export] Instance result_bind : MBind result := fun A B f m =>
  match m with
  | Return a => f a
  | Raise e => Raise e
  end.

(** [int(x)] for a float: truncation towards zero; NaN and the
    infinities raise. *)
Definition int_of_float (x : float) : result Z :=
  match Prim2SF x with
  | S754_nan => Raise (ValueError "cannot convert float NaN to integer")
  | S754_infinity _ =>
      Raise (OverflowError "cannot convert float infinity to integer")
  | S754_zero _ => Return 0
  | S754_finite s m e =>
      let a := match e with
               | Zneg p => Z.shiftr (Zpos m) (Zpos p)
               | _ => Z.shiftl (Zpos m) e
               end in
      Return (if s then - a else a)
  end.

(** The conversion of an [int] operand of a mixed [int]/[float]
    operation: round to nearest even, [OverflowError] beyond the range. *)
Definition float_of_int (n : Z) : result float :=
  match binary_normalize prec emax n 0 false with
  | S754_infinity _ => Raise (OverflowError "int too large to convert to float")
  | sf => Return (SF2Prim sf)
  end.

(** The same conversion for [len(l)], which is within the range. *)
Definition float_of_len (n : nat) : float :=
  SF2Prim (binary_normalize prec emax (Z.of_nat n) 0 false).

(** [x / y] on floats: a zero divisor raises. *)
Definition truediv (x y : float) : result float :=
  if (y =? 0)%float then Raise (ZeroDivisionError "float division by zero")
  else Return (x / y)%float.

(** [n * x] with [n] an [int] and [x] a [float]. *)
Definition mul_int_float (n : Z) (x : float) : result float :=
  f ← float_of_int n; mret (f * x)%float.

(** Truth value of an [Optional[float]]: [None] and zero are false. *)
Definition truthy (v : option float) : bool :=
  match v with
  | Some x => negb (x =? 0)%float
  | None => false
  end.

(** [max(a, b)] and [min(a, b)]: the first argument is kept unless the
    second compares strictly beyond it. *)
Definition max (a b : float) : float := if (a <? b)%float then b else a.
Definition min (a b : float) : float := if (b <? a)%float then b else a.

(** The exact value [m * 2^e * 10^d] rounded to an integer, ties to even:
    the digits that [round(x, d)] and the format [.df] keep. *)
Definition decimal_scaled (m : positive) (e : Z) (d : Z) : Z :=
  let num := Zpos m * 10 ^ d in
  match e with
  | Zneg p =>
      let den := 2 ^ Zpos p in
      let q := num / den in
      let r := num mod den in
      match 2 * r ?= den with
      | Gt => q + 1
      | Eq => if Z.even q then q else q + 1
      | Lt => q
      end
  | _ => num * 2 ^ e
  end.

(** [round(x, ndigits)] for [0 <= ndigits]: the correctly rounded decimal,
    converted back to the nearest float. *)
Definition round (x : float) (ndigits : Z) : float :=
  match Prim2SF x with
  | S754_finite s m e =>
      match decimal_scaled m e ndigits with
      | Zpos k =>
          SF2Prim (SFdiv prec emax (S754_finite s k 0)
                     (S754_finite false (Z.to_pos (10 ^ ndigits)) 0))
      | _ => if s then neg_zero else zero
      end
  | _ => x
  end.

Definition pad_left (n : nat) (s : string) : string :=
  String.concat "" (replicate (n - String.length s) "0"%string) +:+ s.

(** [str(n)] for an [int]. *)
Definition str_int (n : Z) : string := NilZero.string_of_int (Z.to_int n).

(** The format [f"{x:.df}"] for [1 <= d]. *)
Definition format_f (x : float) (d : nat) : string :=
  match Prim2SF x with
  | S754_nan => "nan"
  | S754_infinity s => if s then "-inf" else "inf"
  | S754_zero s => (if s then "-" else "") +:+ "0." +:+ pad_left d ""
  | S754_finite s m e =>
      let k := decimal_scaled m e (Z.of_nat d) in
      (if s then "-" else "") +:+ str_int (k / 10 ^ Z.of_nat d) +:+ "." +:+
      pad_left d (str_int (k mod 10 ^ Z.of_nat d))
  end.

(** *** Text

    Python [str] is modelled by [string]; the case mappings and the
    whitespace class are those of the ASCII range. *)

Definition lower_ascii (c : ascii) : ascii :=
  let n := nat_of_ascii c in
  if ((65 <=? n) && (n <=? 90))%nat then ascii_of_nat (n + 32) else c.

Definition upper_ascii (c : ascii) : ascii :=
  let n := nat_of_ascii c in
  if ((97 <=? n) && (n <=? 122))%nat then ascii_of_nat (n - 32) else c.

Fixpoint map_string (f : ascii -> ascii) (s : string) : string :=
  match s with
  | EmptyString => EmptyString
  | String c s' => String (f c) (map_string f s')
  end.

(** [s.lower()] and [s.upper()] *)
Definition lower (s : string) : string := map_string lower_ascii s.
Definition upper (s : string) : string := map_string upper_ascii s.

(** The characters [str.strip()] removes: tab, line feed, vertical tab,
    form feed, carriage return, the separators 28 to 31, and space. *)
Definition is_space (c : ascii) : bool :=
  let n := nat_of_ascii c in
  (((9 <=? n) && (n <=? 13)) || ((28 <=? n) && (n <=? 32)))%nat.

Fixpoint lstrip (s : string) : string :=
  match s with
  | EmptyString => EmptyString
  | String c s' => if is_space c then lstrip s' else s
  end.

Definition rev_string (s : string) : string :=
  string_of_list_ascii (rev (list_ascii_of_string s)).

(** [s.strip()] *)
Definition strip (s : string) : string :=
  rev_string (lstrip (rev_string (lstrip s))).

(** [sub in s] *)
Definition contains (sub s : string) : bool :=
  match index 0 sub s with
  | Some _ => true
  | None => false
  end.

Fixpoint split_aux (fuel : nat) (sep s : string) : list string :=
  match fuel with
  | O => [s]
  | S fuel' =>
      match index 0 sep s with
      | Some i =>
          let k := (i + String.length sep)%nat in
          substring 0 i s
            :: split_aux fuel' sep (substring k (String.length s - k) s)
      | None => [s]
      end
  end.

(** [s.split(sep)] for a non-empty separator. *)
Definition split (sep s : string) : list string :=
  split_aux (S (String.length s)) sep s.

(** [l[i]] on a list *)
Definition item {A : Type} (l : list A) (i : nat) : result A :=
  match l !! i with
  | Some x => Return x
  | None => Raise (IndexError "list index out of range")
  end.

(** [sorted(l, key=key, reverse=True)] and [l.sort(key=key, reverse=True)]:
    the sort is stable, and reversing keeps elements with equal keys in
    their original order.  A stable sort has one result; it is computed
    here by insertion from the right. *)
Fixpoint insert_desc {A : Type} (key : A -> Z) (x : A) (l : list A) : list A :=
  match l with
  | [] => [x]
  | y :: l' =>
      if key x <? key y then y :: insert_desc key x l' else x :: y :: l'
  end.

Fixpoint sort_desc {A : Type} (key : A -> Z) (l : list A) : list A :=
  match l with
  | [] => []
  | x :: l' => insert_desc key x (sort_desc key l')
  end.

(** The same sort when the comparison [<] of two keys can raise, as the
    one of two [datetime]s can: the sort raises what the comparison
    raises.  A list of fewer than two elements is sorted without a
    comparison.  In a longer list every element is compared with another
    one, and the elements of any two parts the list falls into are
    compared with each other, since the sort has to place the one part
    relative to the other; so when the comparison raises exactly for the
    pairs whose keys are of different kinds, every sort raises exactly on
    the lists that hold both kinds ([NewsFacts.sort_desc_by_spec]). *)
Fixpoint insert_desc_by {A K : Type} (lt : K -> K -> result bool)
    (key : A -> K) (x : A) (l : list A) : result (list A) :=
  match l with
  | [] => Return [x]
  | y :: l' =>
      below ← lt (key x) (key y);
      if below : bool then l'' ← insert_desc_by lt key x l'; mret (y :: l'')
      else mret (x :: y :: l')
  end.

Fixpoint sort_desc_by {A K : Type} (lt : K -> K -> result bool)
    (key : A -> K) (l : list A) : result (list A) :=
  match l with
  | [] => Return []
  | x :: l' => sorted ← sort_desc_by lt key l'; insert_desc_by lt key x sorted
  end.

End Py.
Import Py.

(** ** news_aggregator.py *)

Module News.

Inductive NewsSource : Type := FINNHUB | ALPHA_VANTAGE | NEWSAPI | BENZINGA | RSS.

Inductive NewsSentiment : Type :=
  VERY_BULLISH | BULLISH | NEUTRAL | BEARISH | VERY_BEARISH.

(** A naive [datetime], as [datetime.now()] returns it, is its position
    on the time line in microseconds, and a [timedelta] a number of
    microseconds. *)
Abbreviation datetime := Z.
Abbreviation timedelta := Z.
Definition minutes (n : Z) : timedelta := n * 60000000.

(** The [datetime] of an article is read from a feed.  It is naive, or
    aware when the text it is read from carries an offset, as the
    [publishedAt] of NewsAPI does ([fromisoformat] of [...+00:00]); the
    other clients build naive ones.  [instant] is the number a datetime is
    ordered by among those of its kind: its position on the time line in
    microseconds, in UTC when it is aware. *)
Record timestamp : Type := {
  aware : bool;
  instant : Z
}.

(** A naive datetime as a [timestamp]. *)
Definition naive (t : datetime) : timestamp :=
  {| aware := false; instant := t |}.

Definition MIXED_DATETIMES : exn :=
  TypeError "can't compare offset-naive and offset-aware datetimes".

(** [x < y] on two datetimes ([y > x] likewise): the comparison of a naive
    with an aware one raises. *)
Definition lt_datetime (x y : timestamp) : result bool :=
  if Bool.eqb (aware x) (aware y) then Return (instant x <? instant y)
  else Raise MIXED_DATETIMES.

Record NewsArticle : Type := {
  id : string;
  headline : string;
  summary : string;
  source : NewsSource;
  url : string;
  published_at : timestamp;
  symbols : list string;
  sentiment : option NewsSentiment;
  sentiment_score : option float;
  relevance_score : option float;
  categories : list string
}.

Record MarketNews : Type := {
  articles : list NewsArticle;
  fetch_time : datetime;
  overall_sentiment : float;
  trending_symbols : list string;
  key_themes : list string
}.

(** The API clients held in [self._clients]. *)
Inductive Client : Type :=
| FinnhubClient (api_key : string)
| AlphaVantageNewsClient (api_key : string)
| NewsAPIClient (api_key : string)
| RSSFeedClient.

Record NewsAggregator : Type := {
  config : gmap string string;
  _clients : gmap string Client;
  _cache : gmap string (datetime * list NewsArticle);
  _cache_ttl : timedelta
}.

(** [config.get(key)] as a condition: the key is present with a non-empty
    value. *)
Definition config_key (config : gmap string string) (key : string)
    : option string :=
  match config !! key with
  | Some "" => None
  | r => r
  end.

Definition register (name : string) (client : option Client)
    (clients : gmap string Client) : gmap string Client :=
  match client with
  | Some c => <[name := c]> clients
  | None => clients
  end.

Definition _initialize_clients (config : gmap string string)
    : gmap string Client :=
  let c1 := register "finnhub" (FinnhubClient <$> config_key config "finnhub_key") ∅ in
  let c2 := register "alpha_vantage"
              (AlphaVantageNewsClient <$> config_key config "alpha_vantage_key") c1 in
  let c3 := register "newsapi" (NewsAPIClient <$> config_key config "newsapi_key") c2 in
  <["rss" := RSSFeedClient]> c3.

(** [NewsAggregator(config)] *)
Definition new_NewsAggregator (config : gmap string string) : NewsAggregator :=
  {| config := config;
     _clients := _initialize_clients config;
     _cache := ∅;
     _cache_ttl := minutes 5 |}.

(** The key two headlines are compared by:
    [article.headline.lower().strip()[:50]]. *)
Definition normalized (article : NewsArticle) : string :=
  substring 0 50 (strip (lower (headline article))).

(** One iteration of the loop of [_deduplicate] over the pair
    [(seen_headlines, unique)]. *)
Definition dedup_step (st : gset string * list NewsArticle)
    (article : NewsArticle) : gset string * list NewsArticle :=
  let '(seen_headlines, unique) := st in
  if decide (normalized article ∈ seen_headlines) then st
  else ({[normalized article]} ∪ seen_headlines, unique ++ [article]).

Definition _deduplicate (articles : list NewsArticle)
    : result (list NewsArticle) :=
  let unique := (foldl dedup_step (∅, []) articles).2 in
  sort_desc_by lt_datetime published_at unique.

(** [sum(scores)]: addition from the left, starting at [0] (the sum of
    CPython up to 3.11; later versions also compensate the rounding
    error of the additions). *)
Definition sum (scores : list float) : float :=
  foldl PrimFloat.add 0%float scores.

(** [d[k] = d.get(k, 0) + 1] on a dict kept as its items in insertion
    order. *)
Fixpoint count_up (k : string) (d : list (string * Z)) : list (string * Z) :=
  match d with
  | [] => [(k, 1)]
  | (k', n) :: d' =>
      if String.eqb k' k then (k', n + 1) :: d' else (k', n) :: count_up k d'
  end.

(** The counting loops of [_build_market_news] over a field that holds a
    list of strings, and the ranking of the keys that follows. *)
Definition count_all (field : NewsArticle -> list string)
    (articles : list NewsArticle) : list (string * Z) :=
  foldl (fun d article => foldl (fun d k => count_up k d) d (field article))
    [] articles.

Definition ranked (counts : list (string * Z)) (n : nat) : list string :=
  take n (fst <$> sort_desc snd counts).

Definition _build_market_news (articles : list NewsArticle) (now : datetime)
    : MarketNews :=
  let sentiment_scores := omap sentiment_score articles in
  let overall_sentiment :=
    match sentiment_scores with
    | [] => 0.0%float
    | _ => (* the divisor is the length of a non-empty list *)
        (sum sentiment_scores / float_of_len (length sentiment_scores))%float
    end in
  {| articles := articles;
     fetch_time := now;
     overall_sentiment := overall_sentiment;
     trending_symbols := ranked (count_all symbols articles) 10;
     key_themes := ranked (count_all categories articles) 5 |}.

(** The fetches [get_market_news] can start, in the order it appends them
    to [tasks]. *)
Inductive Task : Type :=
| finnhub_get_market_news
| alpha_vantage_get_news_sentiment
| newsapi_get_top_headlines
| rss_get_all_feeds.

(** What [asyncio.gather(..., return_exceptions=True)] yields for a task:
    the list the fetcher returned, or the exception it raised. *)
Inductive FetchResult : Type :=
| Fetched (result : list NewsArticle)
| Failed (e : exn).

(** What one call reads from outside: the clock at the cache check, the
    outcome of each fetch, the clock when the cache is written and when
    the [MarketNews] is built. *)
Record Env : Type := {
  now_check : datetime;
  gather : Task -> FetchResult;
  now_store : datetime;
  now_build : datetime
}.

Definition cache_key : string := "market_news".

(** The tasks of one fetching pass. *)
Definition tasks_of (self : NewsAggregator) (include_sentiment : bool)
    : list Task :=
  (if decide (is_Some (_clients self !! "finnhub"))
   then [finnhub_get_market_news] else [])
  ++ (if decide (is_Some (_clients self !! "alpha_vantage"))
      then (if include_sentiment then [alpha_vantage_get_news_sentiment] else [])
      else [])
  ++ (if decide (is_Some (_clients self !! "newsapi"))
      then [newsapi_get_top_headlines] else [])
  ++ (if decide (is_Some (_clients self !! "rss"))
      then [rss_get_all_feeds] else []).

(** The loop over [results]: a list extends [all_articles], an exception
    is logged and adds nothing. *)
Definition collect (results : list FetchResult) : list NewsArticle :=
  foldl (fun all_articles result =>
           match result with
           | Fetched l => all_articles ++ l
           | Failed _ => all_articles
           end) [] results.

(** The part of [get_market_news] after the cache check: what the call
    returns or raises, the aggregator after the call, and the fetches that
    were started.  When [_deduplicate] raises, the call raises before it
    writes the cache, and the aggregator is as it was. *)
Definition fetch_market_news (self : NewsAggregator)
    (include_sentiment : bool) (env : Env)
    : result MarketNews * NewsAggregator * list Task :=
  let tasks := tasks_of self include_sentiment in
  let results := gather env <$> tasks in
  let all_articles := collect results in
  match _deduplicate all_articles with
  | Return unique_articles =>
      let self' :=
        {| config := config self;
           _clients := _clients self;
           _cache :=
             <[cache_key := (now_store env, unique_articles)]> (_cache self);
           _cache_ttl := _cache_ttl self |} in
      (Return (_build_market_news unique_articles (now_build env)), self', tasks)
  | Raise e => (Raise e, self, tasks)
  end.

(** The cache check of [get_market_news]: the cached list, when the
    cache is asked for, holds the key, and the entry is younger than the
    TTL. *)
Definition cached_entry (self : NewsAggregator) (use_cache : bool)
    (env : Env) : option (list NewsArticle) :=
  if use_cache then
    match _cache self !! cache_key with
    | Some (cached_time, cached_data) =>
        if now_check env - cached_time <? _cache_ttl self
        then Some cached_data else None
    | None => None
    end
  else None.

(** [get_market_news(use_cache, include_sentiment)]: what the call
    returns or raises, the aggregator after the call, and the fetches that
    were started. *)
Definition get_market_news (self : NewsAggregator)
    (use_cache include_sentiment : bool) (env : Env)
    : result MarketNews * NewsAggregator * list Task :=
  match cached_entry self use_cache env with
  | Some cached_data =>
      (Return (_build_market_news cached_data (now_build env)), self, [])
  | None => fetch_market_news self include_sentiment env
  end.

(** The articles a gathered result adds to [all_articles]. *)
Definition fetched_articles (r : FetchResult) : list NewsArticle :=
  match r with
  | Fetched l => l
  | Failed _ => []
  end.

(** [_deduplicate] as the specification words it: the retained article
    is the latest published among those that share its key. *)
Definition retains_latest (articles : list NewsArticle) : Prop :=
  ∀ (unique : list NewsArticle) (kept other : NewsArticle),
    _deduplicate articles = Return unique →
    kept ∈ unique → other ∈ articles →
    normalized other = normalized kept →
    instant (published_at other) <= instant (published_at kept).

(** The lists whose datetimes are all naive or all aware: those of the
    first article's kind. *)
Definition one_kind (l : list NewsArticle) : bool :=
  match l with
  | [] => true
  | x :: l' =>
      forallb (fun y => Bool.eqb (aware (published_at y))
                          (aware (published_at x))) l'
  end.

(** [a] is the first article of [l] with its key. *)
Definition first_with_key (a : NewsArticle) (l : list NewsArticle) : Prop :=
  ∃ before after : list NewsArticle,
    l = before ++ a :: after ∧
    ∀ b : NewsArticle, b ∈ before → normalized b ≠ normalized a.

(** Two reports of one story, the older one fetched first, for examples;
    their datetimes are naive, as those of the RSS client are. *)
Definition article (headline : string) (published_at : datetime)
    (score : option float) : NewsArticle :=
  {| id := headline; headline := headline; summary := "";
     source := RSS; url := ""; published_at := naive published_at;
     symbols := []; sentiment := None; sentiment_score := score;
     relevance_score := None; categories := ["general"] |}.

Definition report_old : NewsArticle := article "Fed raises rates" 100 None.
Definition report_new : NewsArticle := article "  FED raises rates " 200 None.

(** An article as [NewsAPIClient._parse_articles] builds it from a
    [publishedAt] with an offset: its datetime is aware. *)
Definition report_newsapi : NewsArticle :=
  {| id := "Markets rally"; headline := "Markets rally"; summary := "";
     source := NEWSAPI; url := "";
     published_at := {| aware := true; instant := 150 |};
     symbols := []; sentiment := None; sentiment_score := None;
     relevance_score := None; categories := ["general"] |}.

(** An environment in which every fetch raises, and one in which the RSS
    feeds deliver the newer report. *)
Definition env_all_fail (t : datetime) : Env :=
  {| now_check := t;
     gather := fun _ => Failed (ValueError "fetch failed");
     now_store := t;
     now_build := t |}.

Definition env_rss_new (t : datetime) : Env :=
  {| now_check := t;
     gather := fun task =>
       match task with
       | rss_get_all_feeds => Fetched [report_new]
       | _ => Fetched []
       end;
     now_store := t;
     now_build := t |}.

(** An aggregator whose cache holds the older report since time 0. *)
Definition aggregator_cached_old : NewsAggregator :=
  {| config := ∅;
     _clients := _initialize_clients ∅;
     _cache := {[cache_key := (0, [report_old])]};
     _cache_ttl := minutes 5 |}.

(** An environment in which NewsAPI and the RSS feeds both deliver an
    article, and an aggregator with a key for NewsAPI, without and with
    the older report in its cache since time 0. *)
Definition env_newsapi_and_rss (t : datetime) : Env :=
  {| now_check := t;
     gather := fun task =>
       match task with
       | newsapi_get_top_headlines => Fetched [report_newsapi]
       | rss_get_all_feeds => Fetched [report_new]
       | _ => Fetched []
       end;
     now_store := t;
     now_build := t |}.

(** An environment in which only NewsAPI delivers an article. *)
Definition env_newsapi_only (t : datetime) : Env :=
  {| now_check := t;
     gather := fun task =>
       match task with
       | newsapi_get_top_headlines => Fetched [report_newsapi]
       | _ => Fetched []
       end;
     now_store := t;
     now_build := t |}.

Definition config_newsapi : gmap string string := {["newsapi_key" := "key"]}.

Definition aggregator_newsapi : NewsAggregator :=
  new_NewsAggregator config_newsapi.

Definition aggregator_newsapi_cached_old : NewsAggregator :=
  {| config := config_newsapi;
     _clients := _initialize_clients config_newsapi;
     _cache := {[cache_key := (0, [report_old])]};
     _cache_ttl := minutes 5 |}.

End News.

(** ** market_analyzer.py *)

Module Analyzer.
Import News.

Inductive MarketRegime : Type :=
  TRENDING_BULLISH | TRENDING_BEARISH | RANGE_BOUND | HIGH_UNCERTAINTY | CRISIS.

(** [MarketRegime[name]] *)
Definition regime_of_name (name : string) : result MarketRegime :=
  if String.eqb name "TRENDING_BULLISH" then Return TRENDING_BULLISH
  else if String.eqb name "TRENDING_BEARISH" then Return TRENDING_BEARISH
  else if String.eqb name "RANGE_BOUND" then Return RANGE_BOUND
  else if String.eqb name "HIGH_UNCERTAINTY" then Return HIGH_UNCERTAINTY
  else if String.eqb name "CRISIS" then Return CRISIS
  else Raise (KeyError name).

(** The objects [json.loads] builds.  A dict is its items in insertion
    order, with distinct keys. *)
Inductive pyval : Type :=
| PNone
| PBool (b : bool)
| PInt (n : Z)
| PFloat (x : float)
| PStr (s : string)
| PList (l : list pyval)
| PDict (d : list (string * pyval)).

Definition type_name (v : pyval) : string :=
  match v with
  | PNone => "NoneType"
  | PBool _ => "bool"
  | PInt _ => "int"
  | PFloat _ => "float"
  | PStr _ => "str"
  | PList _ => "list"
  | PDict _ => "dict"
  end.

Definition no_attribute (v : pyval) (attr : string) : exn :=
  AttributeError ("'" +:+ type_name v +:+ "' object has no attribute '"
                  +:+ attr +:+ "'").

Fixpoint lookup_item (key : string) (d : list (string * pyval)) : option pyval :=
  match d with
  | [] => None
  | (k, v) :: d' => if String.eqb k key then Some v else lookup_item key d'
  end.

(** [v.get(key, default)]: only a dict has the method. *)
Definition get (v : pyval) (key : string) (fallback : pyval) : result pyval :=
  match v with
  | PDict d => Return (default fallback (lookup_item key d))
  | _ => Raise (no_attribute v "get")
  end.

(** [v.upper()]: only a str has the method. *)
Definition upper_of (v : pyval) : result string :=
  match v with
  | PStr s => Return (upper s)
  | _ => Raise (no_attribute v "upper")
  end.

Fixpoint chars (s : string) : list pyval :=
  match s with
  | EmptyString => []
  | String c s' => PStr (String c EmptyString) :: chars s'
  end.

(** The items a [for] loop over [v] visits. *)
Definition iterate (v : pyval) : result (list pyval) :=
  match v with
  | PList l => Return l
  | PStr s => Return (chars s)
  | PDict d => Return (PStr <$> (fst <$> d))
  | _ => Raise (TypeError ("'" +:+ type_name v +:+ "' object is not iterable"))
  end.

Record SectorRecommendation : Type := {
  sector : pyval;
  stance : pyval;
  reason : pyval
}.

(** The fields are not checked when the object is built: those taken
    from the reply as they are hold any value. *)
Record RegimeAnalysis : Type := {
  regime : MarketRegime;
  confidence : float;
  reasoning : pyval;
  recommended_strategy : pyval;
  position_size_modifier : float;
  sector_recommendations : list SectorRecommendation;
  risk_level : pyval;
  key_risks : pyval;
  outlook_horizon : pyval;
  key_events_ahead : pyval;
  analysis_time : datetime;
  news_count : Z
}.

(** [for x in l: acc.append(f(x))], stopping at the first exception. *)
Fixpoint for_each {A B : Type} (f : A -> result B) (l : list A) : result (list B) :=
  match l with
  | [] => Return []
  | x :: l' => y ← f x; ys ← for_each f l'; mret (y :: ys)
  end.

Section Oracle.

(** [json.loads] and [float] on a str are library code. *)
Variable json_loads : string -> result pyval.
Variable float_of_str : string -> result float.

(** [float(v)] *)
Definition to_float (v : pyval) : result float :=
  match v with
  | PFloat x => Return x
  | PInt n => float_of_int n
  | PBool b => Return (if b then 1 else 0)%float
  | PStr s => float_of_str s
  | _ => Raise (TypeError
                  ("float() argument must be a string or a real number, not '"
                   +:+ type_name v +:+ "'"))
  end.

(** The reply without its Markdown fence. *)
Definition unfence (response : string) : result string :=
  if contains "```json" response then
    rest ← item (split "```json" response) 1;
    item (split "```" rest) 0
  else if contains "```" response then
    rest ← item (split "```" response) 1;
    item (split "```" rest) 0
  else Return response.

Definition parse_sector (sr : pyval) : result SectorRecommendation :=
  sector ← get sr "sector" (PStr "unknown");
  stance ← get sr "stance" (PStr "neutral");
  reason ← get sr "reason" (PStr "");
  mret {| sector := sector; stance := stance; reason := reason |}.

(** The body of the [try] of [_parse_response]. *)
Definition try_parse (response : string) (market_news : MarketNews)
    (now : datetime) : result RegimeAnalysis :=
  text ← unfence response;
  data ← json_loads (strip text);
  regime_value ← get data "regime" (PStr "RANGE_BOUND");
  regime_str ← upper_of regime_value;
  regime ← regime_of_name regime_str;
  recommendations ← get data "sector_recommendations" (PList []);
  items ← iterate recommendations;
  sector_recs ← for_each parse_sector items;
  confidence_value ← get data "confidence" (PFloat 0.5);
  confidence ← to_float confidence_value;
  reasoning ← get data "reasoning" (PStr "");
  recommended_strategy ← get data "recommended_strategy" (PStr "mean_reversion");
  modifier_value ← get data "position_size_modifier" (PFloat 0.5);
  position_size_modifier ← to_float modifier_value;
  risk_level ← get data "risk_level" (PStr "medium");
  key_risks ← get data "key_risks" (PList []);
  outlook_horizon ← get data "outlook_horizon" (PStr "1-2 Wochen");
  key_events_ahead ← get data "key_events_ahead" (PList []);
  mret {| regime := regime;
          confidence := confidence;
          reasoning := reasoning;
          recommended_strategy := recommended_strategy;
          position_size_modifier := position_size_modifier;
          sector_recommendations := sector_recs;
          risk_level := risk_level;
          key_risks := key_risks;
          outlook_horizon := outlook_horizon;
          key_events_ahead := key_events_ahead;
          analysis_time := now;
          news_count := Z.of_nat (length (articles market_news)) |}.

(** The result of the [except] branch. *)
Definition fallback (e : exn) (market_news : MarketNews) (now : datetime)
    : RegimeAnalysis :=
  {| regime := HIGH_UNCERTAINTY;
     confidence := 0.3;
     reasoning := PStr ("Analyse-Fehler: " +:+ str_exn e);
     recommended_strategy := PStr "cash";
     position_size_modifier := 0.25;
     sector_recommendations := [];
     risk_level := PStr "high";
     key_risks := PList [PStr "Analyse konnte nicht durchgeführt werden"];
     outlook_horizon := PStr "unbekannt";
     key_events_ahead := PList [];
     analysis_time := now;
     news_count := Z.of_nat (length (articles market_news)) |}.

Definition _parse_response (response : string) (market_news : MarketNews)
    (now : datetime) : RegimeAnalysis :=
  match try_parse response market_news now with
  | Return analysis => analysis
  | Raise e => fallback e market_news now
  end.

(** The value of a key of the decoded object, or the default of the code
    when the key is absent. *)
Definition entry (d : list (string * pyval)) (key : string)
    (fallback : pyval) : pyval :=
  default fallback (lookup_item key d).

Definition is_dict (v : pyval) : Prop :=
  match v with
  | PDict _ => True
  | _ => False
  end.

(** A reply is well formed when the text inside its fence decodes to
    an object whose regime (when present) is a string that names a
    regime in any case, whose sector recommendations (when present) can
    be iterated and are objects, and whose confidence and position size
    modifier (when present) convert to a float.  Any other reply is
    malformed. *)
Definition well_formed (response : string) : Prop :=
  ∃ (text : string) (d : list (string * pyval)),
    unfence response = Return text ∧
    json_loads (strip text) = Return (PDict d) ∧
    (∃ (s : string) (r : MarketRegime),
        entry d "regime" (PStr "RANGE_BOUND") = PStr s ∧
        regime_of_name (upper s) = Return r) ∧
    (∃ items : list pyval,
        iterate (entry d "sector_recommendations" (PList [])) = Return items ∧
        Forall is_dict items) ∧
    (∃ x : float, to_float (entry d "confidence" (PFloat 0.5)) = Return x) ∧
    (∃ x : float,
        to_float (entry d "position_size_modifier" (PFloat 0.5)) = Return x).

Definition malformed (response : string) : Prop := ¬ well_formed response.

End Oracle.

(** [0 <= x <= 1] on floats. *)
Definition in_unit_interval (x : float) : bool :=
  ((0 <=? x) && (x <=? 1))%float.

(** [s] between double quotes. *)
Definition quoted (s : string) : string :=
  String "034"%char s +:+ String "034"%char EmptyString.

Definition reply_out_of_range : string :=
  "{" +:+ quoted "regime" +:+ ": " +:+ quoted "CRISIS" +:+ ", "
  +:+ quoted "confidence" +:+ ": 7, "
  +:+ quoted "position_size_modifier" +:+ ": -2}".

Definition reply_unknown_strategy : string :=
  "{" +:+ quoted "regime" +:+ ": " +:+ quoted "range_bound" +:+ ", "
  +:+ quoted "recommended_strategy" +:+ ": " +:+ quoted "yolo" +:+ "}".

(** A decoder for examples: it knows two replies and rejects every other
    text. *)
Definition example_loads (text : string) : result pyval :=
  if String.eqb text reply_out_of_range then
    Return (PDict [("regime", PStr "CRISIS"); ("confidence", PInt 7);
                   ("position_size_modifier", PInt (-2))])
  else if String.eqb text reply_unknown_strategy then
    Return (PDict [("regime", PStr "range_bound");
                   ("recommended_strategy", PStr "yolo")])
  else Raise (JSONDecodeError "Expecting value: line 1 column 1 (char 0)").

Definition example_float_of_str (s : string) : result float :=
  Raise (ValueError ("could not convert string to float: '" +:+ s +:+ "'")).

End Analyzer.

(** ** risk_manager.py *)

Module Risk.

Record TradeCosts : Type := {
  commission : float;
  spread_estimate : float;
  total_roundtrip : float;
  breakeven_move : float
}.

(** Class constants of [CostCalculator]. *)
Definition XETRA_RATE : float := 0.001.
Definition XETRA_MIN : float := 4.0.
Definition XETRA_MAX : float := 99.0.
Definition US_PER_SHARE : float := 0.01.
Definition US_MIN : float := 2.0.
Definition UK_RATE : float := 0.001.
Definition UK_MIN : float := 6.0.

(** [exchange in [...]] *)
Definition str_in (s : string) (l : list string) : bool :=
  existsb (String.eqb s) l.

Definition calculate_stock_cost (exchange : string) (quantity : Z)
    (price : float) : result TradeCosts :=
  order_value ← mul_int_float quantity price;
  commission ←
    (if str_in exchange ["XETRA"; "IBIS"] then
       mret (Py.max XETRA_MIN (Py.min (order_value * XETRA_RATE)%float XETRA_MAX))
     else if str_in exchange ["NYSE"; "NASDAQ"; "ARCA"; "SMART"] then
       per_share ← mul_int_float quantity US_PER_SHARE;
       mret (Py.max US_MIN per_share)
     else if str_in exchange ["LSE"; "LSEETF"] then
       mret (Py.max UK_MIN (order_value * UK_RATE)%float)
     else
       mret (Py.max 4.0 (order_value * 0.001)%float));
  let spread_estimate :=
    (if 100000 <? order_value then order_value * 0.0002
     else if 10000 <? order_value then order_value * 0.0005
     else order_value * 0.001)%float in
  let total_roundtrip := (commission * 2 + spread_estimate * 2)%float in
  let breakeven_move :=
    (* the divisor is positive where the division is made *)
    (if 0 <? order_value then total_roundtrip / order_value * 100
     else infinity)%float in
  mret {| commission := commission;
          spread_estimate := spread_estimate;
          total_roundtrip := total_roundtrip;
          breakeven_move := breakeven_move |}.

Definition is_trade_viable (costs : TradeCosts) (expected_return_pct : float)
    (min_reward_ratio : float) : bool :=
  (breakeven_move costs * min_reward_ratio <? expected_return_pct)%float.

Record PositionSizeResult : Type := {
  shares : Z;
  position_value : float;
  risk_amount : float;
  stop_loss_price : float;
  take_profit_price : float;
  viable : bool;
  reason : string
}.

(** The fields of a [RiskManager] ([cost_calculator] has no state). *)
Record RiskManager : Type := {
  total_capital : float;
  max_position_pct : float;
  max_risk_per_trade : float;
  max_portfolio_risk : float;
  max_correlation : float
}.

(** [RiskManager(total_capital)] with the defaults of [__init__]. *)
Definition new_RiskManager (capital : float) : RiskManager :=
  {| total_capital := capital;
     max_position_pct := 0.05;
     max_risk_per_trade := 0.01;
     max_portfolio_risk := 0.10;
     max_correlation := 0.7 |}.

(** Step 2 of [calculate_position_size]:
    [(stop_loss_pct, take_profit_pct)] for a strategy. *)
Definition stop_take_pct (strategy : string) (volatility : option float)
    : float * float :=
  if String.eqb strategy "momentum" then
    let stop_loss_pct :=
      match volatility with
      | Some v => if truthy volatility then (v * 1.5)%float else 0.05%float
      | None => 0.05%float
      end in
    (stop_loss_pct, (stop_loss_pct * 3)%float)
  else if String.eqb strategy "mean_reversion" then
    let stop_loss_pct :=
      match volatility with
      | Some v => if truthy volatility then (v * 1.0)%float else 0.03%float
      | None => 0.03%float
      end in
    (stop_loss_pct, (stop_loss_pct * 2)%float)
  else if String.eqb strategy "hedge" then (0.07, 0.10)%float
  else (0.04, 0.08)%float.

Definition REASON_RISK_LIMIT : string := "Portfolio-Risiko-Limit erreicht".
Definition REASON_INVALID_STOP : string := "Ungültiger Stop-Loss".
Definition REASON_TOO_SMALL : string := "Position zu klein nach Anpassung".

(** The result every rejection after step 2 returns. *)
Definition rejected (stop_loss_price take_profit_price : float)
    (reason : string) : PositionSizeResult :=
  {| shares := 0; position_value := 0; risk_amount := 0;
     stop_loss_price := stop_loss_price;
     take_profit_price := take_profit_price;
     viable := false; reason := reason |}.

(** Steps 3 to 5 of [calculate_position_size]: [adjusted_shares]. *)
Definition scaled_shares (self : RiskManager)
    (entry_price risk_per_share signal_strength : float) : result Z :=
  (* 3. size by risk *)
  let max_risk_amount := (total_capital self * max_risk_per_trade self)%float in
  by_risk ← truediv max_risk_amount risk_per_share;
  shares_by_risk ← int_of_float by_risk;
  (* 4. size by capital *)
  let max_position_value := (total_capital self * max_position_pct self)%float in
  by_capital ← truediv max_position_value entry_price;
  shares_by_capital ← int_of_float by_capital;
  (* 5. signal strength *)
  let base_shares := Z.min shares_by_risk shares_by_capital in
  scaled ← mul_int_float base_shares signal_strength;
  int_of_float scaled.

Definition calculate_position_size (self : RiskManager) (symbol : string)
    (entry_price : float) (strategy : string) (signal_strength : float)
    (exchange : string) (current_portfolio_risk : float)
    (volatility : option float) : result PositionSizeResult :=
  (* 1. portfolio risk limit *)
  if (max_portfolio_risk self <=? current_portfolio_risk)%float then
    mret (rejected 0 0 REASON_RISK_LIMIT)
  else
    (* 2. stop-loss and take-profit by strategy *)
    let '(stop_loss_pct, take_profit_pct) := stop_take_pct strategy volatility in
    let stop_loss_price := (entry_price * (1 - stop_loss_pct))%float in
    let take_profit_price := (entry_price * (1 + take_profit_pct))%float in
    let risk_per_share := (entry_price - stop_loss_price)%float in
    if (risk_per_share <=? 0)%float then
      mret (rejected stop_loss_price take_profit_price REASON_INVALID_STOP)
    else
      (* 3. to 5. *)
      adjusted_shares ← scaled_shares self entry_price risk_per_share signal_strength;
      if adjusted_shares <? 1 then
        mret (rejected stop_loss_price take_profit_price REASON_TOO_SMALL)
      else
        position_value ← mul_int_float adjusted_shares entry_price;
        risk_amount ← mul_int_float adjusted_shares risk_per_share;
        (* 6. fee check *)
        costs ← calculate_stock_cost exchange adjusted_shares entry_price;
        let expected_return := (take_profit_pct * 100)%float in
        if negb (is_trade_viable costs expected_return 2.0) then
          mret (rejected stop_loss_price take_profit_price
                  ("Gebühren zu hoch: " +:+ format_f (breakeven_move costs) 2
                   +:+ "% Breakeven, " +:+ format_f expected_return 1
                   +:+ "% erwartet"))
        else
          mret {| shares := adjusted_shares;
                  position_value := position_value;
                  risk_amount := risk_amount;
                  stop_loss_price := Py.round stop_loss_price 2;
                  take_profit_price := Py.round take_profit_price 2;
                  viable := true;
                  reason := "OK - " +:+ str_int adjusted_shares
                            +:+ " Stück, Gebühren: "
                            +:+ format_f (commission costs) 2
                            +:+ "€, Breakeven: "
                            +:+ format_f (breakeven_move costs) 2 +:+ "%" |}.

End Risk.

(** ** bot.py *)

Module Bot.
Import Analyzer.

(** [strategy == "momentum"] on a value taken from the reply. *)
Definition str_eq (v : pyval) (s : string) : bool :=
  match v with
  | PStr s' => String.eqb s' s
  | _ => false
  end.

(** The format [f"{x:.1%}"]. *)
Definition format_pct (x : float) (d : nat) : string :=
  format_f (x * 100)%float d +:+ "%".

(** A portfolio item of the broker, with the fields the bot reads. *)
Record Position : Type := {
  symbol : string;
  position : float;
  marketPrice : float;
  averageCost : float;
  unrealizedPNL : float
}.

(** [self.current_regime] is passed as [current_regime]: the cycle sets it
    before it manages the positions. *)
Definition _check_exit_conditions (current_regime : RegimeAnalysis)
    (held : Position) (unrealized_pnl_pct : float) : bool * string :=
  match regime current_regime with
  | CRISIS => (true, "Marktregime: CRISIS")
  | _ =>
      let strategy := recommended_strategy current_regime in
      let '(stop_loss, take_profit) :=
        if str_eq strategy "momentum" then ((-0.05)%float, 0.15%float)
        else ((-0.03)%float, 0.06%float) in
      if (unrealized_pnl_pct <=? stop_loss)%float then
        (true, "Stop-Loss erreicht (" +:+ format_pct unrealized_pnl_pct 1 +:+ ")")
      else if (take_profit <=? unrealized_pnl_pct)%float then
        (true, "Take-Profit erreicht (" +:+ format_pct unrealized_pnl_pct 1 +:+ ")")
      else (false, "")
  end.

(** The P&L that [_manage_existing_positions] computes for a position
    (the divisor is positive where the division is made). *)
Definition unrealized_pnl_pct_of (held : Position) : float :=
  (if 0 <? averageCost held
   then (marketPrice held - averageCost held) / averageCost held
   else 0)%float.


(** The exit rule as the specification words it: the stop-loss and take-profit
    percentages of step 2 of the sizing for the strategy, and exit on
    CRISIS or when the P&L reaches one of them. *)
Definition claimed_thresholds (strategy : pyval) : float * float :=
  if str_eq strategy "momentum" then (0.05, 0.15)%float
  else if str_eq strategy "mean_reversion" then (0.03, 0.06)%float
  else if str_eq strategy "hedge" then (0.07, 0.10)%float
  else (0.04, 0.08)%float.

Definition claimed_exit (current_regime : RegimeAnalysis)
    (held : Position) (unrealized_pnl_pct : float) : bool :=
  match regime current_regime with
  | CRISIS => true
  | _ =>
      let '(stop, take) := claimed_thresholds (recommended_strategy current_regime) in
      ((unrealized_pnl_pct <=? - stop) || (take <=? unrealized_pnl_pct))%float
  end.

(** A regime analysis with a given regime and strategy, for examples. *)
Definition analysis_with (r : MarketRegime) (strategy : string) : RegimeAnalysis :=
  {| regime := r; confidence := 0.5; reasoning := PStr "";
     recommended_strategy := PStr strategy; position_size_modifier := 0.5;
     sector_recommendations := []; risk_level := PStr "medium";
     key_risks := PList []; outlook_horizon := PStr "1-2 Wochen";
     key_events_ahead := PList []; analysis_time := 0; news_count := 0 |}.

(** A position bought at 100 that now trades at [price]. *)
Definition held_at (price : float) : Position :=
  {| symbol := "AAPL"; position := 10; marketPrice := price;
     averageCost := 100; unrealizedPNL := (10 * (price - 100))%float |}.

End Bot.

(** ** news_aggregator.py, the other operations *)

Module NewsMore.
Import News.

Definition hours (n : Z) : timedelta := n * 3600000000.

(** [MarketNews.get_for_symbol(symbol)] *)
Definition get_for_symbol (self : MarketNews) (symbol : string)
    : list NewsArticle :=
  List.filter
    (fun a => existsb (String.eqb (upper symbol)) (upper <$> symbols a))
    (articles self).

(** The comprehension [[a for a in articles if a.published_at > cutoff]]
    for a naive [cutoff]: it raises at the first aware datetime. *)
Fixpoint published_after (cutoff : datetime) (articles : list NewsArticle)
    : result (list NewsArticle) :=
  match articles with
  | [] => Return []
  | a :: articles' =>
      after ← lt_datetime (naive cutoff) (published_at a);
      rest ← published_after cutoff articles';
      mret (if after : bool then a :: rest else rest)
  end.

(** [MarketNews.get_recent(hours)], with the time that [datetime.now()]
    gives. *)
Definition get_recent (self : MarketNews) (n : Z) (now : datetime)
    : result (list NewsArticle) :=
  let cutoff := now - hours n in
  published_after cutoff (articles self).

(** [AlphaVantageNewsClient._score_to_sentiment(score)] *)
Definition _score_to_sentiment (score : float) : NewsSentiment :=
  if (0.35 <=? score)%float then VERY_BULLISH
  else if (0.15 <=? score)%float then BULLISH
  else if (score <=? -0.35)%float then VERY_BEARISH
  else if (score <=? -0.15)%float then BEARISH
  else NEUTRAL.

(** The value of a member of [NewsSentiment]. *)
Definition sentiment_value (s : NewsSentiment) : Z :=
  match s with
  | VERY_BULLISH => 2
  | BULLISH => 1
  | NEUTRAL => 0
  | BEARISH => -1
  | VERY_BEARISH => -2
  end.

(** The fetches [get_symbol_news] can start, in the order it appends them
    to [tasks]. *)
Inductive SymbolTask : Type :=
| finnhub_get_company_news
| alpha_vantage_get_news_sentiment_tickers
| newsapi_search_news.

(** What one call of [get_symbol_news] reads from outside. *)
Record SymbolEnv : Type := {
  gather_symbol : SymbolTask -> FetchResult;
  now_built : datetime
}.

Definition symbol_tasks_of (self : NewsAggregator) : list SymbolTask :=
  (if decide (is_Some (_clients self !! "finnhub"))
   then [finnhub_get_company_news] else [])
  ++ (if decide (is_Some (_clients self !! "alpha_vantage"))
      then [alpha_vantage_get_news_sentiment_tickers] else [])
  ++ (if decide (is_Some (_clients self !! "newsapi"))
      then [newsapi_search_news] else []).

(** [get_symbol_news(symbol, days_back)]: what the call returns or
    raises, and the fetches that were started; the aggregator is not
    changed. *)
Definition get_symbol_news (self : NewsAggregator) (symbol : string)
    (days_back : Z) (env : SymbolEnv) : result MarketNews * list SymbolTask :=
  let tasks := symbol_tasks_of self in
  let results := gather_symbol env <$> tasks in
  let all_articles := collect results in
  (unique_articles ← _deduplicate all_articles;
   mret (_build_market_news unique_articles (now_built env)),
   tasks).

(** The number of times [k] is mentioned in a field of the articles. *)
Definition mentions (field : NewsArticle -> list string)
    (articles : list NewsArticle) (k : string) : Z :=
  Z.of_nat (length (List.filter (String.eqb k) (concat (field <$> articles)))).

(** [d.get(k, 0)] on a dict kept as its items. *)
Fixpoint count_of (d : list (string * Z)) (k : string) : Z :=
  match d with
  | [] => 0
  | (k', n) :: d' => if String.eqb k' k then n else count_of d' k
  end.

End NewsMore.

(** ** market_analyzer.py, the digest of the news *)

Module AnalyzerMore.
Import News NewsMore Analyzer.

Definition newline : string := String "010"%char EmptyString.

(** The format [f"{x:+.df}"]: the sign is always written. *)
Definition format_f_signed (x : float) (d : nat) : string :=
  match format_f x d with
  | String "-"%char _ as s => s
  | s => "+" +:+ s
  end.

(** The line of one article in [_format_news_for_analysis]. *)
Definition article_line (article : NewsArticle) : string :=
  let sentiment :=
    match sentiment_score article with
    | Some score => " [" +:+ format_f_signed score 2 +:+ "]"
    | None => ""
    end in
  let symbols_text :=
    match symbols article with
    | [] => ""
    | _ => " (" +:+ String.concat ", " (take 2 (symbols article)) +:+ ")"
    end in
  "• " +:+ headline article +:+ sentiment +:+ symbols_text.

(** The list [lines] of [_format_news_for_analysis], with the time that
    [datetime.now()] gives. *)
Definition digest_lines (market_news : MarketNews) (max_articles : nat)
    (now : datetime) : result (list string) :=
  recent_all ← get_recent market_news 48 now;
  let recent := take max_articles recent_all in
  mret
    (["Anzahl Artikel: " +:+ str_int (Z.of_nat (length recent));
      "Gesamt-Sentiment-Score: "
        +:+ format_f_signed (overall_sentiment market_news) 2;
      "Trending Symbole: "
        +:+ String.concat ", " (take 10 (trending_symbols market_news));
      "Hauptthemen: " +:+ String.concat ", " (key_themes market_news);
      newline +:+ "--- Headlines mit Sentiment ---" +:+ newline]
     ++ (article_line <$> recent)).

Definition _format_news_for_analysis (market_news : MarketNews)
    (now : datetime) : result string :=
  lines ← digest_lines market_news 25 now;
  mret (String.concat newline lines).

(** The texts without a backtick, for the statements on fenced replies. *)
Fixpoint no_backtick (s : string) : bool :=
  match s with
  | EmptyString => true
  | String c s' => negb (Ascii.eqb c "`") && no_backtick s'
  end.

(** A decoder for examples that also knows the empty object. *)
Definition example_loads_empty (text : string) : result pyval :=
  if String.eqb text "{}" then Return (PDict []) else example_loads text.

End AnalyzerMore.

(** ** risk_manager.py, the other operations *)

Module RiskMore.
Import Risk.

Definition OPTION_DE : float := 2.0.
Definition OPTION_US : float := 0.65.

Definition calculate_option_cost (exchange : string) (contracts : Z)
    : result TradeCosts :=
  commission ←
    (if str_in exchange ["EUREX"; "DTB"] then mul_int_float contracts OPTION_DE
     else mul_int_float contracts OPTION_US);
  spread_estimate ← mul_int_float contracts 5.0;
  let total_roundtrip := (commission * 2 + spread_estimate * 2)%float in
  mret {| commission := commission;
          spread_estimate := spread_estimate;
          total_roundtrip := total_roundtrip;
          breakeven_move := 0 |}.

(** [update_capital(new_capital)] *)
Definition update_capital (self : RiskManager) (new_capital : float)
    : RiskManager :=
  {| total_capital := new_capital;
     max_position_pct := max_position_pct self;
     max_risk_per_trade := max_risk_per_trade self;
     max_portfolio_risk := max_portfolio_risk self;
     max_correlation := max_correlation self |}.

(** [check_drawdown(current_equity, peak_equity, max_drawdown)]:
    [(limit_reached, current_drawdown)]. *)
Definition check_drawdown (current_equity peak_equity max_drawdown : float)
    : result (bool * float) :=
  if (peak_equity <=? 0)%float then mret (false, 0.0%float)
  else
    current_drawdown ← truediv (peak_equity - current_equity)%float peak_equity;
    let limit_reached := (max_drawdown <=? current_drawdown)%float in
    mret (limit_reached, current_drawdown).

(** The exceptions of the conversions between [int] and [float]. *)
Definition conversion_error (e : exn) : Prop :=
  match e with
  | ValueError _ | OverflowError _ => True
  | _ => False
  end.

End RiskMore.

(** ** bot.py, the other operations *)

Module BotMore.
Import News Analyzer Bot.

(** [BotConfig].  A [datetime.time] is its number of microseconds since
    midnight. *)
Record BotConfig : Type := {
  capital : float;
  mode : string;
  cycle_interval : Z;
  min_trade_capital : float;
  ib_host : string;
  ib_port : Z;
  ib_client_id : Z;
  max_position_pct : float;
  max_risk_per_trade_pct : float;
  max_portfolio_risk_pct : float;
  max_drawdown_pct : float;
  llm_provider : string;
  llm_model : string;
  trading_start : Z;
  trading_end : Z;
  timezone : string
}.

(** [_is_trading_hours], with the time of day that [datetime.now()] gives. *)
Definition _is_trading_hours (config : BotConfig) (now : Z) : bool :=
  (trading_start config <=? now) && (now <=? trading_end config).

Definition _should_seek_opportunities (config : BotConfig)
    (current_regime : RegimeAnalysis) (available_cash : float) : bool :=
  match regime current_regime with
  | CRISIS => false
  | _ =>
      if (available_cash <? min_trade_capital config)%float then false
      else if (position_size_modifier current_regime <? 0.25)%float then false
      else true
  end.

Definition _calculate_portfolio_risk (config : BotConfig)
    (portfolio : list Position) : result float :=
  match portfolio with
  | [] => mret 0.0%float
  | _ =>
      let total_risk :=
        foldl (fun total_risk held =>
                 let position_value :=
                   abs (position held * marketPrice held)%float in
                 let risk_per_position := (position_value * 0.05)%float in
                 (total_risk + risk_per_position)%float)
              0.0%float portfolio in
      truediv total_risk (capital config)
  end.

(** An account value of the broker: its value is text. *)
Record AccountValue : Type := {
  tag : string;
  currency : string;
  value : string
}.

Definition is_available_funds (av : AccountValue) : bool :=
  String.eqb (tag av) "AvailableFunds" && String.eqb (currency av) "EUR".

Section Conversion.

(** [float] on a str is library code. *)
Variable float_of_str : string -> result float.

Fixpoint _get_available_cash (account_values : list AccountValue)
    : result float :=
  match account_values with
  | [] => mret 0.0%float
  | av :: rest =>
      if is_available_funds av then float_of_str (value av)
      else _get_available_cash rest
  end.

End Conversion.

(** A configuration for examples: trading from 09:00 to 17:30, and one
    with a window over midnight, from 22:00 to 06:00. *)
Definition hour : Z := 3600000000.

Definition config_day : BotConfig :=
  {| capital := 50000; mode := "paper"; cycle_interval := 300;
     min_trade_capital := 500; ib_host := "127.0.0.1"; ib_port := 7497;
     ib_client_id := 1; max_position_pct := 0.05;
     max_risk_per_trade_pct := 0.01; max_portfolio_risk_pct := 0.10;
     max_drawdown_pct := 0.15; llm_provider := "anthropic";
     llm_model := "claude-sonnet-4-20250514";
     trading_start := 9 * hour; trading_end := 17 * hour + hour / 2;
     timezone := "Europe/Berlin" |}.

Definition config_night : BotConfig :=
  {| capital := 0; mode := "paper"; cycle_interval := 300;
     min_trade_capital := 500; ib_host := "127.0.0.1"; ib_port := 7497;
     ib_client_id := 1; max_position_pct := 0.05;
     max_risk_per_trade_pct := 0.01; max_portfolio_risk_pct := 0.10;
     max_drawdown_pct := 0.15; llm_provider := "anthropic";
     llm_model := "claude-sonnet-4-20250514";
     trading_start := 22 * hour; trading_end := 6 * hour;
     timezone := "Europe/Berlin" |}.

End BotMore.

(** ** The order of the floats

    The comparison of two floats that are numbers is the lexicographic
    comparison of their ranks. *)

Module FloatOrder.

Definition rank (f : spec_float) : option (Z * Z * Z) :=
  match f with
  | S754_nan => None
  | S754_infinity true => Some (-2, 0, 0)
  | S754_infinity false => Some (2, 0, 0)
  | S754_zero _ => Some (0, 0, 0)
  | S754_finite true m e => Some (-1, - e, Zneg m)
  | S754_finite false m e => Some (1, e, Zpos m)
  end.

Definition lex (a b : Z * Z * Z) : comparison :=
  match a.1.1 ?= b.1.1 with
  | Eq => match a.1.2 ?= b.1.2 with
          | Eq => a.2 ?= b.2
          | c => c
          end
  | c => c
  end.

(** [x] is a number, and [x <= y] and [x < y] on numbers. *)
Definition number (x : float) : Prop := (x =? x)%float = true.
Definition fle (x y : float) : Prop := (x <=? y)%float = true.
Definition flt (x y : float) : Prop := (x <? y)%float = true.

End FloatOrder.

(** * Properties *)

(** ** Position sizing *)

Module RiskFacts.
Import Risk.

Lemma bind_return {A B : Type} (m : result A) (f : A -> result B) (b : B) :
  (m ≫= f) = Return b -> exists a : A, m = Return a /\ f a = Return b.
Proof.
  destruct m as [a | e]; simpl; intros H.
  - exists a. split; [reflexivity | exact H].
  - discriminate H.
Qed.

(** C1: with capital 50000, entry price 150, strategy momentum, signal
    strength 0.8, exchange NASDAQ, portfolio risk 0.02, no volatility and
    the default limits, the sizing returns stop-loss 142.50, take-profit
    172.50, a positive share count (12) and viable = true. *)
Theorem sizing_scenario (symbol : string) :
  exists r : PositionSizeResult,
    calculate_position_size (new_RiskManager 50000) symbol 150 "momentum"
      0.8 "NASDAQ" 0.02 None = Return r
    /\ stop_loss_price r = 142.5%float
    /\ take_profit_price r = 172.5%float
    /\ 0 < shares r
    /\ viable r = true
    /\ r = {| shares := 12; position_value := 1800; risk_amount := 90;
              stop_loss_price := 142.5; take_profit_price := 172.5;
              viable := true;
              reason := "OK - 12 Stück, Gebühren: 2.00€, Breakeven: 0.42%" |}.
Proof.
  eexists. split.
  - vm_compute. reflexivity.
  - repeat split; reflexivity.
Qed.

Lemma rejected_fields (sl tp : float) (why : string) :
  let r := rejected sl tp why in
  viable r = false /\ shares r = 0 /\ position_value r = 0%float
  /\ risk_amount r = 0%float /\ reason r = why.
Proof. repeat split. Qed.

(** Every path of [calculate_position_size] that returns: a rejection, or
    the viable result with a share count of at least one. *)
Lemma sizing_cases self symbol entry strategy signal exchange cur vol r :
  calculate_position_size self symbol entry strategy signal exchange cur vol
    = Return r ->
  (exists sl tp why, r = rejected sl tp why)
  \/ (viable r = true /\ 1 <= shares r).
Proof.
  unfold calculate_position_size. intros H.
  destruct (max_portfolio_risk self <=? cur)%float.
  { left. inversion H. eauto. }
  destruct (stop_take_pct strategy vol) as [sl tp].
  destruct (_ <=? 0)%float.
  { left. inversion H. eauto. }
  apply bind_return in H as (n & Hn & H).
  destruct (n <? 1) eqn:Hlt.
  { left. inversion H. eauto. }
  apply bind_return in H as (pv & _ & H).
  apply bind_return in H as (ra & _ & H).
  apply bind_return in H as (costs & _ & H).
  destruct (negb _).
  { left. inversion H. eauto. }
  right. inversion H; subst; simpl. split; [reflexivity | ].
  apply Z.ltb_ge in Hlt. exact Hlt.
Qed.

(** C9: a returned [PositionSizeResult] that is not viable has no shares,
    no position value and no risk amount; a viable one has at least one
    share; so the share count is at least one exactly when the result is
    viable. *)
Theorem sizing_result_invariant self symbol entry strategy signal exchange
    cur vol r :
  calculate_position_size self symbol entry strategy signal exchange cur vol
    = Return r ->
  (viable r = false ->
     shares r = 0 /\ position_value r = 0%float /\ risk_amount r = 0%float)
  /\ (viable r = true -> 1 <= shares r)
  /\ (1 <= shares r <-> viable r = true).
Proof.
  intros H. apply sizing_cases in H as [(sl & tp & why & ->) | [Hv Hs]].
  - simpl. repeat split; try discriminate; intros; lia.
  - rewrite Hv. repeat split; try discriminate; auto.
Qed.

Lemma sizing_result_invariant_witness :
  exists r : PositionSizeResult,
    calculate_position_size (new_RiskManager 50000) "AAPL" 150 "momentum"
      0.8 "NASDAQ" 0.02 None = Return r
    /\ ((viable r = false ->
          shares r = 0 /\ position_value r = 0%float /\ risk_amount r = 0%float)
        /\ (viable r = true -> 1 <= shares r)
        /\ (1 <= shares r <-> viable r = true)).
Proof.
  eexists. split.
  - vm_compute. reflexivity.
  - apply (sizing_result_invariant (new_RiskManager 50000) "AAPL" 150
             "momentum" 0.8 "NASDAQ" 0.02 None).
    vm_compute. reflexivity.
Defined.

(** The comparison [x >= x] holds for every float but NaN. *)
Lemma leb_refl (x : float) : is_nan x = false -> (x <=? x)%float = true.
Proof.
  unfold is_nan. rewrite negb_false_iff, FloatAxioms.eqb_spec, leb_spec.
  unfold SFeqb, SFleb.
  destruct (SFcompare (Prim2SF x) (Prim2SF x)) as [[ | | ] | ];
    intros H; try discriminate H; reflexivity.
Qed.

(** C8: whenever [current_portfolio_risk >= max_portfolio_risk] the sizing
    returns the rejection (not viable, no shares) with the portfolio risk
    limit reason; the comparison includes equality, for every value of the
    limit that is a number; and the rejection of a scaled share count
    below one carries the other, too-small reason. *)
Theorem risk_limit_rejects self symbol entry strategy signal exchange cur vol :
  (max_portfolio_risk self <=? cur)%float = true ->
  calculate_position_size self symbol entry strategy signal exchange cur vol
    = Return (rejected 0 0 REASON_RISK_LIMIT)
  /\ viable (rejected 0 0 REASON_RISK_LIMIT) = false
  /\ reason (rejected 0 0 REASON_RISK_LIMIT) = "Portfolio-Risiko-Limit erreicht"
  /\ (is_nan (max_portfolio_risk self) = false ->
      calculate_position_size self symbol entry strategy signal exchange
        (max_portfolio_risk self) vol = Return (rejected 0 0 REASON_RISK_LIMIT))
  /\ REASON_RISK_LIMIT <> REASON_TOO_SMALL
  /\ (forall self' entry' strategy' signal' exchange' cur' vol' n,
        (max_portfolio_risk self' <=? cur')%float = false ->
        let stop_loss_price :=
          (entry' * (1 - (stop_take_pct strategy' vol').1))%float in
        let take_profit_price :=
          (entry' * (1 + (stop_take_pct strategy' vol').2))%float in
        (entry' - stop_loss_price <=? 0)%float = false ->
        scaled_shares self' entry' (entry' - stop_loss_price)%float signal'
          = Return n ->
        n < 1 ->
        calculate_position_size self' symbol entry' strategy' signal'
          exchange' cur' vol'
        = Return (rejected stop_loss_price take_profit_price REASON_TOO_SMALL)).
Proof.
  intros Hge. repeat split.
  - unfold calculate_position_size. rewrite Hge. reflexivity.
  - intros Hnan. unfold calculate_position_size.
    rewrite (leb_refl _ Hnan). reflexivity.
  - discriminate.
  - intros self' entry' strategy' signal' exchange' cur' vol' n Hlim sl tp
      Hrisk Hn Hsmall.
    unfold calculate_position_size. rewrite Hlim.
    subst sl tp. destruct (stop_take_pct strategy' vol') as [slp tpp].
    simpl in *. rewrite Hrisk, Hn. simpl.
    apply Z.ltb_lt in Hsmall. rewrite Hsmall. reflexivity.
Qed.

Lemma risk_limit_rejects_witness :
  (max_portfolio_risk (new_RiskManager 50000) <=? 0.10)%float = true
  /\ calculate_position_size (new_RiskManager 50000) "AAPL" 150 "momentum"
       0.8 "NASDAQ" 0.10 None = Return (rejected 0 0 REASON_RISK_LIMIT).
Proof.
  split; [reflexivity | ].
  exact (proj1 (risk_limit_rejects (new_RiskManager 50000) "AAPL" 150
                  "momentum" 0.8 "NASDAQ" 0.10 None eq_refl)).
Defined.

(** The too-small rejection is reached: a signal strength of 0.01 scales
    the sixteen shares of the scenario down to none. *)
Example too_small_scenario :
  calculate_position_size (new_RiskManager 50000) "AAPL" 150 "momentum"
    0.01 "NASDAQ" 0.02 None
  = Return (rejected 142.5 172.5 REASON_TOO_SMALL).
Proof. vm_compute. reflexivity. Qed.

End RiskFacts.

(** ** Exit rules *)

Module BotFacts.
Import Analyzer Bot.

(** CRISIS closes every position, whatever the strategy and the P&L. *)
Lemma exit_on_crisis (current_regime : RegimeAnalysis) (held : Position)
    (pnl : float) :
  regime current_regime = CRISIS ->
  _check_exit_conditions current_regime held pnl = (true, "Marktregime: CRISIS").
Proof. unfold _check_exit_conditions. intros ->. reflexivity. Qed.

Lemma exit_on_crisis_witness :
  regime (analysis_with CRISIS "momentum") = CRISIS
  /\ _check_exit_conditions (analysis_with CRISIS "momentum") (held_at 101) 0.01
     = (true, "Marktregime: CRISIS").
Proof.
  split; [reflexivity | ].
  exact (exit_on_crisis (analysis_with CRISIS "momentum") (held_at 101) 0.01
           eq_refl).
Defined.



(** C5 at the inputs where the exit check leaves the table of the sizing:
    a hedge position at -4% is closed on the 3% stop although the stop of
    a hedge is 7%, and under the strategy cash a position at +7% is closed
    on the 6% target although the target of the other strategies is 8%. *)
Theorem exit_check_beyond_two_strategies :
  unrealized_pnl_pct_of (held_at 96) = (-0.04)%float
  /\ _check_exit_conditions (analysis_with RANGE_BOUND "hedge") (held_at 96)
       (-0.04) = (true, "Stop-Loss erreicht (-4.0%)")
  /\ claimed_exit (analysis_with RANGE_BOUND "hedge") (held_at 96) (-0.04)
     = false
  /\ Risk.stop_take_pct "hedge" None = (0.07, 0.10)%float
  /\ unrealized_pnl_pct_of (held_at 107) = 0.07%float
  /\ _check_exit_conditions (analysis_with RANGE_BOUND "cash") (held_at 107)
       0.07 = (true, "Take-Profit erreicht (7.0%)")
  /\ claimed_exit (analysis_with RANGE_BOUND "cash") (held_at 107) 0.07 = false
  /\ Risk.stop_take_pct "cash" None = (0.04, 0.08)%float.
Proof. repeat split; vm_compute; reflexivity. Qed.

End BotFacts.

(** ** Parsing the oracle's reply *)

Module AnalyzerFacts.
Import News Analyzer.
Import RiskFacts.

Section Oracle.
Variable json_loads : string -> result pyval.
Variable float_of_str : string -> result float.

Abbreviation try_parse := (try_parse json_loads float_of_str).
Abbreviation _parse_response := (_parse_response json_loads float_of_str).
Abbreviation well_formed := (well_formed json_loads float_of_str).
Abbreviation malformed := (malformed json_loads float_of_str).

Lemma get_return (v : pyval) (key : string) (fallback r : pyval) :
  get v key fallback = Return r ->
  exists d, v = PDict d /\ r = entry d key fallback.
Proof.
  destruct v; simpl; intros H; try discriminate H.
  inversion H. eauto.
Qed.

Lemma parse_sector_return (sr : pyval) (rec : SectorRecommendation) :
  parse_sector sr = Return rec -> is_dict sr.
Proof.
  unfold parse_sector. intros H.
  apply bind_return in H as (v & Hv & _).
  apply get_return in Hv as (d & -> & _). exact I.
Qed.

Lemma for_each_sectors (items : list pyval) (recs : list SectorRecommendation) :
  for_each parse_sector items = Return recs -> Forall is_dict items.
Proof.
  revert recs. induction items as [ | sr items IH]; intros recs H.
  - constructor.
  - simpl in H.
    apply bind_return in H as (rec & Hrec & H).
    apply bind_return in H as (recs' & Hrecs & _).
    constructor; [eapply parse_sector_return | eapply IH]; eassumption.
Qed.

Lemma sectors_for_each (items : list pyval) :
  Forall is_dict items ->
  exists recs, for_each parse_sector items = Return recs.
Proof.
  induction 1 as [ | sr items Hsr _ [recs IH]].
  - exists []. reflexivity.
  - destruct sr; try contradiction. simpl. rewrite IH. simpl. eauto.
Qed.

(** The [try] succeeds on well-formed replies only ... *)
Lemma try_parse_well_formed response market_news now analysis :
  try_parse response market_news now = Return analysis ->
  well_formed response.
Proof.
  unfold Analyzer.try_parse. intros H.
  apply bind_return in H as (text & Htext & H).
  apply bind_return in H as (data & Hdata & H).
  apply bind_return in H as (rv & Hrv & H).
  apply get_return in Hrv as (d & -> & ->).
  apply bind_return in H as (rs & Hrs & H).
  apply bind_return in H as (r & Hr & H).
  apply bind_return in H as (recs & Hrecs & H). simpl in Hrecs.
  apply bind_return in H as (items & Hitems & H).
  apply bind_return in H as (srs & Hsrs & H).
  apply bind_return in H as (cv & Hcv & H). simpl in Hcv.
  apply bind_return in H as (c & Hc & H).
  apply bind_return in H as (? & _ & H).
  apply bind_return in H as (? & _ & H).
  apply bind_return in H as (mv & Hmv & H). simpl in Hmv.
  apply bind_return in H as (m & Hm & _).
  inversion Hrecs; subst recs. inversion Hcv; subst cv.
  inversion Hmv; subst mv.
  exists text, d. repeat split; try assumption.
  - destruct (entry d "regime" (PStr "RANGE_BOUND")) eqn:E;
      try discriminate Hrs.
    inversion Hrs; subst rs. eauto.
  - exists items. split; [assumption | eapply for_each_sectors; eassumption].
  - eauto.
  - eauto.
Qed.

(** ... and on all of them. *)
Lemma well_formed_parses response market_news now :
  well_formed response ->
  exists analysis, try_parse response market_news now = Return analysis.
Proof.
  intros (text & d & Htext & Hdata & (s & r & Hs & Hr) & (items & Hit & Hall)
          & (c & Hc) & (m & Hm)).
  apply sectors_for_each in Hall as (recs & Hrecs).
  unfold Analyzer.try_parse, entry in *.
  rewrite Htext. simpl. rewrite Hdata. simpl.
  rewrite Hs. simpl. rewrite Hr. simpl. rewrite Hit. simpl.
  rewrite Hrecs. simpl. rewrite Hc. simpl. rewrite Hm. simpl. eauto.
Qed.


(** C6 at a reply that decodes but carries numbers outside [0, 1]: the
    numbers are converted and stored as they are. *)
Theorem out_of_range_fields_kept market_news now :
  json_loads reply_out_of_range
    = Return (PDict [("regime", PStr "CRISIS"); ("confidence", PInt 7);
                     ("position_size_modifier", PInt (-2))]) ->
  let analysis := _parse_response reply_out_of_range market_news now in
  regime analysis = CRISIS
  /\ confidence analysis = 7%float
  /\ position_size_modifier analysis = (-2)%float
  /\ in_unit_interval (confidence analysis) = false
  /\ in_unit_interval (position_size_modifier analysis) = false.
Proof.
  intros Hloads. unfold Analyzer._parse_response, Analyzer.try_parse.
  assert (unfence reply_out_of_range = Return reply_out_of_range) as ->
    by (vm_compute; reflexivity).
  simpl mbind.
  assert (strip reply_out_of_range = reply_out_of_range) as ->
    by (vm_compute; reflexivity).
  rewrite Hloads. vm_compute. repeat split; reflexivity.
Qed.

End Oracle.


Lemma out_of_range_fields_kept_witness :
  confidence (_parse_response example_loads example_float_of_str
                reply_out_of_range (_build_market_news [] 0) 0) = 7%float.
Proof.
  exact (proj1 (proj2 (out_of_range_fields_kept example_loads
           example_float_of_str (_build_market_news [] 0) 0 eq_refl))).
Defined.

(** Only the regime is checked against its enumeration: a reply with an
    unknown strategy is well formed, and the strategy is kept as it is. *)
Example unknown_strategy_kept :
  let analysis :=
    _parse_response example_loads example_float_of_str
      ("```json" +:+ reply_unknown_strategy +:+ "```")
      (_build_market_news [] 0) 0 in
  regime analysis = RANGE_BOUND
  /\ recommended_strategy analysis = PStr "yolo"
  /\ confidence analysis = 0.5%float.
Proof. vm_compute. repeat split; reflexivity. Qed.

(** The fallback itself is within the ranges. *)
Lemma fallback_in_range e market_news now :
  in_unit_interval (confidence (fallback e market_news now)) = true
  /\ in_unit_interval (position_size_modifier (fallback e market_news now)) = true.
Proof. split; reflexivity. Qed.

End AnalyzerFacts.

(** ** News fusion *)

Module NewsFacts.
Import News.

(** *** The descending stable sort *)

Lemma insert_desc_perm {A : Type} (key : A -> Z) (x : A) (l : list A) :
  insert_desc key x l ≡ₚ x :: l.
Proof.
  induction l as [ | y l IH]; simpl.
  - reflexivity.
  - destruct (key x <? key y).
    + rewrite IH. apply Permutation_swap.
    + reflexivity.
Qed.

Lemma sort_desc_perm {A : Type} (key : A -> Z) (l : list A) :
  sort_desc key l ≡ₚ l.
Proof.
  induction l as [ | x l IH]; simpl.
  - reflexivity.
  - rewrite insert_desc_perm, IH. reflexivity.
Qed.

Lemma insert_desc_sorted {A : Type} (key : A -> Z) (x : A) (l : list A) :
  StronglySorted (fun a b => key b <= key a) l ->
  StronglySorted (fun a b => key b <= key a) (insert_desc key x l).
Proof.
  induction 1 as [ | y l Hl IH Hy]; simpl.
  - repeat constructor.
  - destruct (key x <? key y) eqn:E.
    + apply Z.ltb_lt in E. constructor; [exact IH | ].
      rewrite insert_desc_perm. constructor; [lia | exact Hy].
    + apply Z.ltb_ge in E. constructor.
      * constructor; assumption.
      * constructor; [exact E | ].
        eapply Forall_impl; [exact Hy | ]. simpl. intros; lia.
Qed.

Lemma sort_desc_sorted {A : Type} (key : A -> Z) (l : list A) :
  StronglySorted (fun a b => key b <= key a) (sort_desc key l).
Proof.
  induction l as [ | x l IH]; simpl.
  - constructor.
  - apply insert_desc_sorted, IH.
Qed.

(** *** Deduplication *)

Lemma first_with_key_in (a : NewsArticle) (l : list NewsArticle) :
  first_with_key a l -> a ∈ l.
Proof.
  intros (before & after & -> & _).
  apply elem_of_app. right. apply elem_of_cons. left. reflexivity.
Qed.

Lemma first_with_key_snoc (a x : NewsArticle) (l : list NewsArticle) :
  first_with_key a l -> first_with_key a (l ++ [x]).
Proof.
  intros (before & after & -> & Hfirst).
  exists before, (after ++ [x]). split; [ | exact Hfirst].
  rewrite <- app_assoc. reflexivity.
Qed.

(** What the loop of [_deduplicate] has built after the articles [l]:
    [seen_headlines] holds the keys of [l], and [unique] holds, once
    each, the first article of every key. *)
Ltac in_snoc :=
  apply elem_of_app;
  first [ left; assumption
        | right; apply list_elem_of_singleton; reflexivity ].

Lemma dedup_loop (l : list NewsArticle) :
  let st := foldl dedup_step (∅, []) l in
  (forall k : string, k ∈ st.1 <-> exists b, b ∈ l /\ normalized b = k)
  /\ (forall a, a ∈ st.2 -> first_with_key a l)
  /\ (forall b, b ∈ l -> exists a, a ∈ st.2 /\ normalized a = normalized b)
  /\ NoDup (normalized <$> st.2).
Proof.
  induction l as [ | x l IH] using rev_ind; simpl.
  - repeat split.
    + intros Hk. apply not_elem_of_empty in Hk. contradiction.
    + intros (b & Hb & _). apply not_elem_of_nil in Hb. contradiction.
    + intros a Ha. apply not_elem_of_nil in Ha. contradiction.
    + intros b Hb. apply not_elem_of_nil in Hb. contradiction.
    + constructor.
  - rewrite foldl_app. simpl.
    destruct (foldl dedup_step (∅, []) l) as [seen unique].
    simpl in IH. destruct IH as (Hseen & Hfirst & Hcover & Hnodup).
    unfold dedup_step.
    destruct (decide (normalized x ∈ seen)) as [Hin | Hnew]; simpl.
    + repeat split.
      * intros Hk. apply Hseen in Hk as (b & Hb & Hkey).
        exists b. split; [in_snoc | exact Hkey].
      * intros (b & Hb & Hkey). apply elem_of_app in Hb as [Hb | Hb].
        -- apply Hseen. eauto.
        -- apply list_elem_of_singleton in Hb. subst b k. exact Hin.
      * intros a Ha. apply first_with_key_snoc, Hfirst, Ha.
      * intros b Hb. apply elem_of_app in Hb as [Hb | Hb].
        -- apply Hcover, Hb.
        -- apply list_elem_of_singleton in Hb. subst b.
           apply Hseen in Hin as (b & Hb & Hkey).
           destruct (Hcover b Hb) as (a & Ha & Hab).
           exists a. split; [exact Ha | congruence].
      * exact Hnodup.
    + repeat split.
      * intros Hk. apply elem_of_union in Hk as [Hk | Hk].
        -- apply elem_of_singleton in Hk. subst k.
           exists x. split; [in_snoc | reflexivity].
        -- apply Hseen in Hk as (b & Hb & Hkey).
           exists b. split; [in_snoc | exact Hkey].
      * intros (b & Hb & Hkey). apply elem_of_app in Hb as [Hb | Hb].
        -- apply elem_of_union. right. apply Hseen. eauto.
        -- apply list_elem_of_singleton in Hb. subst b k.
           apply elem_of_union. left. apply elem_of_singleton. reflexivity.
      * intros a Ha. apply elem_of_app in Ha as [Ha | Ha].
        -- apply first_with_key_snoc, Hfirst, Ha.
        -- apply list_elem_of_singleton in Ha. subst a.
           exists l, []. split; [reflexivity | ].
           intros b Hb Hkey. apply Hnew, Hseen. eauto.
      * intros b Hb. apply elem_of_app in Hb as [Hb | Hb].
        -- destruct (Hcover b Hb) as (a & Ha & Hab).
           exists a. split; [in_snoc | exact Hab].
        -- apply list_elem_of_singleton in Hb. subst b.
           exists x. split; [in_snoc | reflexivity].
      * rewrite fmap_app. simpl. apply NoDup_app. repeat split.
        -- exact Hnodup.
        -- intros k Hk Hx. apply list_elem_of_singleton in Hx. subst k.
           apply list_elem_of_fmap in Hk as (a & Hkey & Ha).
           apply Hnew, Hseen. exists a. split; [ | symmetry; exact Hkey].
           apply first_with_key_in, Hfirst, Ha.
        -- apply NoDup_singleton.
Qed.

(** *** The sort of the datetimes *)

Lemma one_kind_forall (h : NewsArticle) (l : list NewsArticle) :
  one_kind (h :: l) = true <->
  Forall (fun y => aware (published_at y) = aware (published_at h)) l.
Proof.
  simpl. rewrite forallb_forall, Forall_forall. split.
  - intros H y Hy. apply eqb_prop, H, list_elem_of_In, Hy.
  - intros H y Hy. rewrite (H y) by (apply list_elem_of_In; exact Hy).
    apply eqb_reflx.
Qed.

Lemma one_kind_spec (l : list NewsArticle) :
  one_kind l = true <->
  forall a b, a ∈ l -> b ∈ l ->
    aware (published_at a) = aware (published_at b).
Proof.
  destruct l as [ | h l]; [split; [ | reflexivity] | ].
  - intros _ a b Ha. apply not_elem_of_nil in Ha. contradiction.
  - rewrite one_kind_forall, Forall_forall. split.
    + intros H a b Ha Hb.
      assert (forall y, y ∈ h :: l ->
                aware (published_at y) = aware (published_at h)) as Hh.
      { intros y Hy. apply elem_of_cons in Hy as [-> | Hy]; [reflexivity | ].
        apply H, Hy. }
      rewrite (Hh a Ha), (Hh b Hb). reflexivity.
    + intros H y Hy. apply H; [apply elem_of_cons; right; exact Hy | ].
      apply elem_of_cons. left. reflexivity.
Qed.

Lemma one_kind_perm (l l' : list NewsArticle) :
  l ≡ₚ l' -> one_kind l = one_kind l'.
Proof.
  intros Hperm. apply eq_true_iff_eq. rewrite !one_kind_spec.
  split; intros H a b Ha Hb; apply H;
    first [ rewrite Hperm; assumption | rewrite <- Hperm; assumption ].
Qed.

(** A list that is not of one kind holds an aware and a naive datetime. *)
Lemma mixed_kinds (l : list NewsArticle) :
  one_kind l = false ->
  exists a b, a ∈ l /\ b ∈ l
    /\ aware (published_at a) = true /\ aware (published_at b) = false.
Proof.
  destruct l as [ | h l]; [discriminate | ]. simpl. intros Hmixed.
  assert (exists y, y ∈ l
            /\ aware (published_at y) <> aware (published_at h))
    as (y & Hy & Hdiff).
  { induction l as [ | z l IH]; [discriminate | ]. simpl in Hmixed.
    apply andb_false_iff in Hmixed as [Hz | Hl].
    - exists z. split; [apply elem_of_cons; left; reflexivity | ].
      intros E. rewrite E, eqb_reflx in Hz. discriminate.
    - destruct (IH Hl) as (y & Hy & Hdiff).
      exists y. split; [apply elem_of_cons; right; exact Hy | exact Hdiff]. }
  assert (y ∈ h :: l) as Hy' by (apply elem_of_cons; right; exact Hy).
  assert (h ∈ h :: l) as Hh by (apply elem_of_cons; left; reflexivity).
  destruct (aware (published_at y)) eqn:Ey, (aware (published_at h)) eqn:Eh;
    try congruence.
  - exists y, h. repeat split; assumption.
  - exists h, y. repeat split; assumption.
Qed.

Lemma insert_desc_by_same (x : NewsArticle) (l : list NewsArticle) :
  Forall (fun y => aware (published_at y) = aware (published_at x)) l ->
  insert_desc_by lt_datetime published_at x l
  = Return (insert_desc (fun a => instant (published_at a)) x l).
Proof.
  induction 1 as [ | y l Hy Hl IH]; [reflexivity | ].
  cbn [insert_desc_by insert_desc]. rewrite IH.
  unfold lt_datetime. rewrite Hy, eqb_reflx.
  cbn [mbind result_bind mret result_ret].
  destruct (instant (published_at x) <? instant (published_at y));
    reflexivity.
Qed.

Lemma insert_desc_by_other (x y : NewsArticle) (l : list NewsArticle) :
  aware (published_at y) <> aware (published_at x) ->
  insert_desc_by lt_datetime published_at x (y :: l) = Raise MIXED_DATETIMES.
Proof.
  intros Hdiff. simpl. unfold lt_datetime.
  destruct (Bool.eqb (aware (published_at x)) (aware (published_at y))) eqn:E;
    [ | reflexivity].
  apply eqb_prop in E. congruence.
Qed.

(** The sort of the datetimes returns exactly on the lists of one kind,
    and then the stable descending sort by [instant]. *)
Lemma sort_desc_by_spec (l : list NewsArticle) :
  sort_desc_by lt_datetime published_at l
  = if one_kind l
    then Return (sort_desc (fun a => instant (published_at a)) l)
    else Raise MIXED_DATETIMES.
Proof.
  induction l as [ | x l IH]; [reflexivity | ].
  cbn [sort_desc_by]. rewrite IH.
  destruct (one_kind (x :: l)) eqn:Ex.
  - apply one_kind_forall in Ex.
    assert (one_kind l = true) as ->.
    { apply one_kind_spec. intros a b Ha Hb.
      rewrite Forall_forall in Ex. rewrite (Ex a Ha), (Ex b Hb). reflexivity. }
    simpl. apply insert_desc_by_same.
    rewrite sort_desc_perm. exact Ex.
  - destruct (one_kind l) eqn:El; [ | reflexivity]. simpl.
    destruct (sort_desc (fun a => instant (published_at a)) l)
      as [ | y sorted] eqn:Es.
    + assert (l = []) as ->.
      { apply Permutation_nil_r. rewrite <- Es. symmetry.
        apply sort_desc_perm. }
      discriminate Ex.
    + apply insert_desc_by_other. intros Hsame.
      assert (y ∈ l) as Hy.
      { rewrite <- (sort_desc_perm (fun a => instant (published_at a)) l), Es.
        apply elem_of_cons. left. reflexivity. }
      rewrite <- not_true_iff_false in Ex. apply Ex.
      apply one_kind_forall, Forall_forall. intros z Hz.
      rewrite <- Hsame. rewrite one_kind_spec in El. apply El; assumption.
Qed.

(** *** What [_deduplicate] returns and when it raises *)

Lemma deduplicate_spec (articles : list NewsArticle) :
  _deduplicate articles
  = let unique := (foldl dedup_step (∅, []) articles).2 in
    if one_kind unique
    then Return (sort_desc (fun a => instant (published_at a)) unique)
    else Raise MIXED_DATETIMES.
Proof. unfold _deduplicate. apply sort_desc_by_spec. Qed.

Lemma deduplicate_return (articles unique : list NewsArticle) :
  _deduplicate articles = Return unique ->
  unique = sort_desc (fun a => instant (published_at a))
             (foldl dedup_step (∅, []) articles).2
  /\ one_kind unique = true.
Proof.
  rewrite deduplicate_spec. cbv zeta.
  destruct (one_kind (foldl dedup_step (∅, []) articles).2) eqn:E;
    [ | discriminate].
  intros [= <-]. split; [reflexivity | ].
  rewrite (one_kind_perm _ _ (sort_desc_perm _ _)). exact E.
Qed.

Lemma deduplicate_raise (articles : list NewsArticle) (e : exn) :
  _deduplicate articles = Raise e ->
  e = MIXED_DATETIMES
  /\ exists a b, a ∈ articles /\ b ∈ articles
       /\ aware (published_at a) = true /\ aware (published_at b) = false.
Proof.
  rewrite deduplicate_spec. cbv zeta.
  destruct (one_kind (foldl dedup_step (∅, []) articles).2) eqn:E;
    [discriminate | ].
  intros [= <-]. split; [reflexivity | ].
  destruct (mixed_kinds _ E) as (a & b & Ha & Hb & Haware & Hnaive).
  destruct (dedup_loop articles) as (_ & Hfirst & _).
  exists a, b. repeat split; try assumption;
    apply first_with_key_in, Hfirst; assumption.
Qed.

(** Articles whose datetimes are all of one kind are deduplicated without
    an error. *)
Lemma deduplicate_one_kind (articles : list NewsArticle) :
  one_kind articles = true -> exists unique, _deduplicate articles = Return unique.
Proof.
  intros Hkind. rewrite deduplicate_spec. cbv zeta.
  assert (one_kind (foldl dedup_step (∅, []) articles).2 = true) as ->.
  { rewrite one_kind_spec in Hkind. apply one_kind_spec. intros a b Ha Hb.
    destruct (dedup_loop articles) as (_ & Hfirst & _).
    apply Hkind; apply first_with_key_in, Hfirst; assumption. }
  eauto.
Qed.

Lemma deduplicate_elem (a : NewsArticle) (articles unique : list NewsArticle) :
  _deduplicate articles = Return unique ->
  a ∈ unique <-> a ∈ (foldl dedup_step (∅, []) articles).2.
Proof.
  intros Hret. apply deduplicate_return in Hret as [-> _].
  rewrite sort_desc_perm. reflexivity.
Qed.

Lemma deduplicate_first (articles unique : list NewsArticle) (a : NewsArticle) :
  _deduplicate articles = Return unique ->
  a ∈ unique -> first_with_key a articles.
Proof.
  intros Hret Ha. destruct (dedup_loop articles) as (_ & Hfirst & _).
  apply Hfirst, (deduplicate_elem _ _ _ Hret), Ha.
Qed.

Lemma deduplicate_covers (articles unique : list NewsArticle) (b : NewsArticle) :
  _deduplicate articles = Return unique ->
  b ∈ articles ->
  exists a, a ∈ unique /\ normalized a = normalized b.
Proof.
  intros Hret Hb. destruct (dedup_loop articles) as (_ & _ & Hcover & _).
  destruct (Hcover b Hb) as (a & Ha & Hab).
  exists a. split; [apply (deduplicate_elem _ _ _ Hret), Ha | exact Hab].
Qed.

Lemma deduplicate_nodup (articles unique : list NewsArticle) :
  _deduplicate articles = Return unique -> NoDup (normalized <$> unique).
Proof.
  intros Hret. apply deduplicate_return in Hret as [-> _].
  destruct (dedup_loop articles) as (_ & _ & _ & Hnodup).
  rewrite sort_desc_perm. exact Hnodup.
Qed.

Lemma deduplicate_sorted (articles unique : list NewsArticle) :
  _deduplicate articles = Return unique ->
  StronglySorted
    (fun a b => instant (published_at b) <= instant (published_at a)) unique.
Proof.
  intros Hret. apply deduplicate_return in Hret as [-> _].
  apply (sort_desc_sorted (fun a => instant (published_at a))).
Qed.

Lemma deduplicate_nil : _deduplicate [] = Return [].
Proof. reflexivity. Qed.

(** C2, as the code has it: of the articles that share a normalized
    headline key, the list that [_deduplicate] returns retains the one
    that comes first in its input, whatever the publication times; every
    key of the input is retained once, and the retained articles are
    ordered newest first. *)
Theorem deduplicate_keeps_first (articles unique : list NewsArticle) :
  _deduplicate articles = Return unique ->
  (forall a, a ∈ unique -> first_with_key a articles)
  /\ (forall b, b ∈ articles ->
        exists a, a ∈ unique /\ normalized a = normalized b)
  /\ NoDup (normalized <$> unique)
  /\ StronglySorted
       (fun a b => instant (published_at b) <= instant (published_at a))
       unique.
Proof.
  intros Hret.
  split; [intros a; apply (deduplicate_first _ _ _ Hret) | ].
  split; [intros b; apply (deduplicate_covers _ _ _ Hret) | ].
  split; [exact (deduplicate_nodup _ _ Hret) | ].
  exact (deduplicate_sorted _ _ Hret).
Qed.

Lemma deduplicate_reports :
  _deduplicate [report_old; report_new] = Return [report_old].
Proof. vm_compute. reflexivity. Qed.

Lemma deduplicate_keeps_first_witness :
  _deduplicate [report_old; report_new] = Return [report_old]
  /\ first_with_key report_old [report_old; report_new].
Proof.
  split; [exact deduplicate_reports | ].
  apply (proj1 (deduplicate_keeps_first [report_old; report_new] [report_old]
                  deduplicate_reports)).
  apply elem_of_cons. left. reflexivity.
Defined.

(** C2 as stated fails: of two reports of one story, the older one is
    retained when it is fetched first. *)
Lemma latest_not_retained : ~ (forall articles, retains_latest articles).
Proof.
  intros H.
  specialize (H [report_old; report_new] [report_old] report_old report_new
                deduplicate_reports).
  assert (instant (published_at report_new)
          <= instant (published_at report_old)) as Hle.
  { apply H.
    - apply elem_of_cons. left. reflexivity.
    - apply elem_of_cons. right. apply elem_of_cons. left. reflexivity.
    - vm_compute. reflexivity. }
  vm_compute in Hle. apply Hle. reflexivity.
Qed.

(** The latest is retained when the input already comes newest first. *)
Lemma latest_retained_when_sorted (articles : list NewsArticle) :
  StronglySorted
    (fun a b => instant (published_at b) <= instant (published_at a))
    articles ->
  retains_latest articles.
Proof.
  intros Hsorted unique kept other Hret Hkept Hother Hkey.
  apply (deduplicate_first _ _ _ Hret) in Hkept
    as (before & after & -> & Hfirst).
  apply elem_of_app in Hother as [Hother | Hother].
  - exfalso. exact (Hfirst other Hother Hkey).
  - apply elem_of_cons in Hother as [-> | Hother]; [lia | ].
    apply StronglySorted_app_1_r in Hsorted.
    apply StronglySorted_inv in Hsorted as [_ Hall].
    rewrite Forall_forall in Hall. apply Hall, Hother.
Qed.

(** *** Fetching and caching *)

Lemma collect_from (acc : list NewsArticle) (results : list FetchResult) :
  foldl (fun all_articles result =>
           match result with
           | Fetched l => all_articles ++ l
           | Failed _ => all_articles
           end) acc results
  = acc ++ concat (fetched_articles <$> results).
Proof.
  revert acc. induction results as [ | r results IH]; intros acc; simpl.
  - rewrite app_nil_r. reflexivity.
  - rewrite IH. destruct r; simpl.
    + rewrite app_assoc. reflexivity.
    + reflexivity.
Qed.

Lemma collect_concat (results : list FetchResult) :
  collect results = concat (fetched_articles <$> results).
Proof. unfold collect. rewrite collect_from. reflexivity. Qed.

Lemma collect_elem (a : NewsArticle) (env : Env) (tasks : list Task) :
  a ∈ collect (gather env <$> tasks) <->
  exists t l, t ∈ tasks /\ gather env t = Fetched l /\ a ∈ l.
Proof.
  rewrite collect_concat. induction tasks as [ | t tasks IH]; simpl.
  - split.
    + intros H. apply not_elem_of_nil in H. contradiction.
    + intros (t & l & Ht & _). apply not_elem_of_nil in Ht. contradiction.
  - rewrite elem_of_app, IH. split.
    + intros [Ha | (t' & l & Ht' & Hl & Ha)].
      * destruct (gather env t) as [l | e] eqn:E; simpl in Ha.
        -- exists t, l. split; [apply elem_of_cons; left; reflexivity | ].
           split; [exact E | exact Ha].
        -- apply not_elem_of_nil in Ha. contradiction.
      * exists t', l. split; [apply elem_of_cons; right; exact Ht' | ].
        split; assumption.
    + intros (t' & l & Ht' & Hl & Ha).
      apply elem_of_cons in Ht' as [-> | Ht'].
      * left. rewrite Hl. exact Ha.
      * right. eauto.
Qed.

Lemma collect_nothing (env : Env) (tasks : list Task) :
  (forall t, t ∈ tasks -> fetched_articles (gather env t) = []) ->
  collect (gather env <$> tasks) = [].
Proof.
  intros Hfail. rewrite collect_concat.
  induction tasks as [ | t tasks IH]; simpl.
  - reflexivity.
  - rewrite Hfail by (apply elem_of_cons; left; reflexivity).
    apply IH. intros t' Ht'. apply Hfail, elem_of_cons. right. exact Ht'.
Qed.

(** The RSS client is registered for every configuration. *)
Lemma rss_registered (config : gmap string string) (include_sentiment : bool) :
  rss_get_all_feeds ∈ tasks_of (new_NewsAggregator config) include_sentiment.
Proof.
  unfold tasks_of. rewrite !elem_of_app. right. right. right.
  simpl. unfold _initialize_clients. rewrite lookup_insert_eq.
  destruct (decide (is_Some (Some RSSFeedClient))) as [_ | Hno].
  - apply elem_of_cons. left. reflexivity.
  - exfalso. apply Hno. eauto.
Qed.

(** A call that does not ask for the cache always fetches. *)
Lemma no_cache_fetches (self : NewsAggregator) (env : Env) :
  cached_entry self false env = None.
Proof. reflexivity. Qed.

(** A call that finds a fresh entry returns its articles, starts no
    fetch and leaves the aggregator as it is. *)
Lemma cache_hit (self : NewsAggregator) (include_sentiment : bool)
    (env : Env) (cached_time : datetime) (cached_data : list NewsArticle) :
  _cache self !! cache_key = Some (cached_time, cached_data) ->
  now_check env - cached_time < _cache_ttl self ->
  get_market_news self true include_sentiment env
  = (Return (_build_market_news cached_data (now_build env)), self, []).
Proof.
  intros Hentry Hfresh. unfold get_market_news, cached_entry.
  rewrite Hentry. apply Z.ltb_lt in Hfresh. rewrite Hfresh. reflexivity.
Qed.

(** A call that finds no fresh entry is a fetching pass. *)
Lemma cache_miss (self : NewsAggregator) (use_cache include_sentiment : bool)
    (env : Env) :
  cached_entry self use_cache env = None ->
  get_market_news self use_cache include_sentiment env
  = fetch_market_news self include_sentiment env.
Proof. intros Hmiss. unfold get_market_news. rewrite Hmiss. reflexivity. Qed.

(** A fetching pass that raises leaves the aggregator as it is. *)
Lemma fetch_raise (self : NewsAggregator) (include_sentiment : bool)
    (env : Env) (e : exn) (self1 : NewsAggregator) (started : list Task) :
  fetch_market_news self include_sentiment env = (Raise e, self1, started) ->
  _deduplicate (collect (gather env <$> tasks_of self include_sentiment))
    = Raise e
  /\ self1 = self /\ started = tasks_of self include_sentiment.
Proof.
  unfold fetch_market_news.
  destruct (_deduplicate _) as [unique | e'] eqn:E; intros [= <- <- <-];
    repeat split.
Qed.

(** A fetching pass that returns has written the list it returns into
    the cache. *)
Lemma fetch_return (self : NewsAggregator) (include_sentiment : bool)
    (env : Env) (news : MarketNews) (self1 : NewsAggregator)
    (started : list Task) :
  fetch_market_news self include_sentiment env = (Return news, self1, started) ->
  _deduplicate (collect (gather env <$> tasks_of self include_sentiment))
    = Return (articles news)
  /\ news = _build_market_news (articles news) (now_build env)
  /\ _cache self1 = <[cache_key := (now_store env, articles news)]> (_cache self)
  /\ _cache_ttl self1 = _cache_ttl self
  /\ started = tasks_of self include_sentiment.
Proof.
  unfold fetch_market_news.
  destruct (_deduplicate _) as [unique | e'] eqn:E; intros [= <- <- <-];
    repeat split.
Qed.

(** When NewsAPI and the RSS feeds both deliver, the fetching pass
    raises. *)
Lemma mixed_delivery_raises (t : datetime) :
  get_market_news aggregator_newsapi false true (env_newsapi_and_rss t)
  = (Raise MIXED_DATETIMES, aggregator_newsapi,
     [newsapi_get_top_headlines; rss_get_all_feeds]).
Proof. vm_compute. reflexivity. Qed.

(** C4.  What holds: a call that fetches starts the tasks of the
    registered clients; a fetcher that raised adds nothing; when no
    fetcher delivers an article the call returns, with no articles and an
    overall sentiment of 0.0; and a call that returns, returns the
    deduplicated articles of the fetchers that delivered a list.  What
    fails: the call raises [TypeError] when the delivered articles that
    are retained mix naive and aware datetimes, as they do when NewsAPI
    and the RSS feeds both deliver, although no fetcher failed. *)
Theorem fetch_raises_on_mixed_datetimes :
  get_market_news aggregator_newsapi false true (env_newsapi_and_rss 1)
  = (Raise MIXED_DATETIMES, aggregator_newsapi,
     [newsapi_get_top_headlines; rss_get_all_feeds])
  /\ forall (self : NewsAggregator) (use_cache include_sentiment : bool)
       (env : Env),
       cached_entry self use_cache env = None ->
       match get_market_news self use_cache include_sentiment env with
       | (outcome, _, started) =>
           started = tasks_of self include_sentiment
           /\ ((forall t, t ∈ started -> fetched_articles (gather env t) = []) ->
               exists news, outcome = Return news
                 /\ articles news = [] /\ overall_sentiment news = 0.0%float)
           /\ match outcome with
              | Return news =>
                  _deduplicate
                    (concat (fetched_articles <$> (gather env <$> started)))
                  = Return (articles news)
                  /\ (forall a, a ∈ articles news ->
                        exists t l,
                          t ∈ started /\ gather env t = Fetched l /\ a ∈ l)
                  /\ (forall t l b,
                        t ∈ started -> gather env t = Fetched l -> b ∈ l ->
                        exists a,
                          a ∈ articles news /\ normalized a = normalized b)
              | Raise e =>
                  e = MIXED_DATETIMES
                  /\ exists t1 l1 a1 t2 l2 a2,
                       (t1 ∈ started /\ gather env t1 = Fetched l1 /\ a1 ∈ l1
                        /\ aware (published_at a1) = true)
                       /\ (t2 ∈ started /\ gather env t2 = Fetched l2 /\ a2 ∈ l2
                           /\ aware (published_at a2) = false)
              end
       end.
Proof.
  split; [exact (mixed_delivery_raises 1) | ].
  intros self use_cache include_sentiment env Hmiss.
  rewrite (cache_miss _ _ _ _ Hmiss).
  destruct (fetch_market_news self include_sentiment env)
    as [[outcome self1] started] eqn:Hfetch.
  destruct outcome as [news | e].
  - apply fetch_return in Hfetch as (Hret & Hnews & _ & _ & ->).
    split; [reflexivity | ]. split; [ | split; [ | split]].
    + intros Hfail. rewrite (collect_nothing _ _ Hfail) in Hret.
      rewrite deduplicate_nil in Hret. injection Hret as Hempty.
      exists news. split; [reflexivity | ].
      rewrite Hnews, <- Hempty. split; reflexivity.
    + rewrite <- collect_concat. exact Hret.
    + intros a Ha.
      apply (deduplicate_first _ _ _ Hret), first_with_key_in in Ha.
      apply collect_elem, Ha.
    + intros t l b Ht Hl Hb. apply (deduplicate_covers _ _ _ Hret).
      apply collect_elem. eauto.
  - apply fetch_raise in Hfetch as (Hraise & _ & ->).
    split; [reflexivity | ]. split; [ | ].
    + intros Hfail. rewrite (collect_nothing _ _ Hfail) in Hraise.
      rewrite deduplicate_nil in Hraise. discriminate Hraise.
    + apply deduplicate_raise in Hraise
        as (-> & a & b & Ha & Hb & Haware & Hnaive).
      split; [reflexivity | ].
      apply collect_elem in Ha as (t1 & l1 & Ht1 & Hl1 & Ha).
      apply collect_elem in Hb as (t2 & l2 & Ht2 & Hl2 & Hb).
      exists t1, l1, a, t2, l2, b. repeat split; assumption.
Qed.

(** After a call with [use_cache=True] that returns, the cache holds the
    articles the call returned; a call that raises leaves the aggregator
    as it is. *)
Lemma cache_after_call (self : NewsAggregator) (include_sentiment : bool)
    (env : Env) :
  match get_market_news self true include_sentiment env with
  | (Return news, self', _) =>
      (exists cached_time,
          _cache self' !! cache_key = Some (cached_time, articles news))
      /\ _cache_ttl self' = _cache_ttl self
  | (Raise _, self', _) => self' = self
  end.
Proof.
  unfold get_market_news.
  destruct (cached_entry self true env) as [cached_data | ] eqn:Hentry.
  - unfold cached_entry in Hentry.
    destruct (_cache self !! cache_key) as [[cached_time data] | ] eqn:E;
      [ | discriminate].
    destruct (now_check env - cached_time <? _cache_ttl self);
      [ | discriminate].
    injection Hentry as ->. simpl. split; [eauto | reflexivity].
  - destruct (fetch_market_news self include_sentiment env)
      as [[[news | e] self1] started] eqn:Hfetch.
    + apply fetch_return in Hfetch as (_ & _ & Hcache & Httl & _).
      rewrite Hcache, lookup_insert_eq. split; [eauto | exact Httl].
    + apply fetch_raise in Hfetch as (_ & -> & _). reflexivity.
Qed.

(** C7: after a call with [use_cache=True] has returned, a second such
    call made before the cached entry is five minutes old (the default
    TTL) returns the same articles, starts no fetch and changes nothing. *)
Theorem cached_call_repeats (self : NewsAggregator)
    (include1 include2 : bool) (env1 env2 : Env) :
  match get_market_news self true include1 env1 with
  | (Return news1, self1, _) =>
      exists cached_time,
        _cache self1 !! cache_key = Some (cached_time, articles news1)
        /\ (now_check env2 - cached_time < _cache_ttl self1 ->
            match get_market_news self1 true include2 env2 with
            | (outcome2, self2, started2) =>
                (exists news2,
                    outcome2 = Return news2
                    /\ articles news2 = articles news1)
                /\ started2 = []
                /\ self2 = self1
            end)
  | (Raise _, self1, _) => self1 = self
  end
  /\ forall config, _cache_ttl (new_NewsAggregator config) = minutes 5.
Proof.
  split; [ | reflexivity].
  pose proof (cache_after_call self include1 env1) as H.
  destruct (get_market_news self true include1 env1)
    as [[[news1 | e] self1] started1]; [ | exact H].
  destruct H as [[cached_time Hentry] _].
  exists cached_time. split; [exact Hentry | ].
  intros Hfresh. rewrite (cache_hit _ _ _ _ _ Hentry Hfresh).
  split; [eexists; split; reflexivity | ]. split; reflexivity.
Qed.

Lemma cached_call_repeats_witness :
  get_market_news aggregator_cached_old true true (env_rss_new 1)
    = (Return (_build_market_news [report_old] 1), aggregator_cached_old, [])
  /\ now_check (env_all_fail 299999999) - 0 < _cache_ttl aggregator_cached_old
  /\ get_market_news aggregator_cached_old true true (env_all_fail 299999999)
     = (Return (_build_market_news [report_old] 299999999),
        aggregator_cached_old, [])
  /\ match get_market_news aggregator_cached_old true true (env_rss_new 1) with
     | (Return news1, self1, _) =>
         exists cached_time,
           _cache self1 !! cache_key = Some (cached_time, articles news1)
           /\ (now_check (env_all_fail 299999999) - cached_time
                 < _cache_ttl self1 ->
               match get_market_news self1 true true
                       (env_all_fail 299999999) with
               | (outcome2, self2, started2) =>
                   (exists news2,
                       outcome2 = Return news2
                       /\ articles news2 = articles news1)
                   /\ started2 = [] /\ self2 = self1
               end)
     | (Raise _, self1, _) => self1 = aggregator_cached_old
     end.
Proof.
  split; [reflexivity | ]. split; [reflexivity | ]. split; [reflexivity | ].
  exact (proj1 (cached_call_repeats aggregator_cached_old true true
                  (env_rss_new 1) (env_all_fail 299999999))).
Defined.

(** Once the entry is five minutes old the call fetches again. *)
Example expired_entry_refetches :
  get_market_news aggregator_cached_old true true (env_rss_new 300000000)
  = (Return (_build_market_news [report_new] 300000000),
     {| config := ∅;
        _clients := _initialize_clients ∅;
        _cache := <[cache_key := (300000000, [report_new])]>
                    {[cache_key := (0, [report_old])]};
        _cache_ttl := minutes 5 |},
     [rss_get_all_feeds]).
Proof. vm_compute. reflexivity. Qed.

(** C10.  What holds: a call that fetches (every call with
    [use_cache=False], and a call that finds no fresh entry) and returns
    has written the deduplicated list it returns into the slot
    [market_news] under the time of the write and has left the other
    slots as they are; a call with [use_cache=True] within the TTL of that
    time returns this list, without a fetch.  What fails: a call that
    fetches and raises in [_deduplicate] has not written the slot; the
    older entry stays, and a call with [use_cache=True] within its TTL
    returns the older snapshot. *)
Theorem failed_fetch_keeps_cache :
  (get_market_news aggregator_newsapi_cached_old false true
     (env_newsapi_and_rss 1)
   = (Raise MIXED_DATETIMES, aggregator_newsapi_cached_old,
      [newsapi_get_top_headlines; rss_get_all_feeds])
   /\ get_market_news aggregator_newsapi_cached_old true true (env_all_fail 2)
      = (Return (_build_market_news [report_old] 2),
         aggregator_newsapi_cached_old, []))
  /\ forall (self : NewsAggregator) (use_cache include_sentiment : bool)
       (env : Env),
       use_cache = false \/ cached_entry self use_cache env = None ->
       match get_market_news self use_cache include_sentiment env with
       | (Return news, self1, started) =>
           started = tasks_of self include_sentiment
           /\ _deduplicate (collect (gather env <$> started))
              = Return (articles news)
           /\ _cache self1 !! cache_key = Some (now_store env, articles news)
           /\ (forall k, k <> cache_key -> _cache self1 !! k = _cache self !! k)
           /\ (forall include2 env2,
                 now_check env2 - now_store env < _cache_ttl self1 ->
                 match get_market_news self1 true include2 env2 with
                 | (outcome2, self2, started2) =>
                     (exists news2,
                         outcome2 = Return news2
                         /\ articles news2 = articles news)
                     /\ started2 = [] /\ self2 = self1
                 end)
       | (Raise e, self1, started) =>
           started = tasks_of self include_sentiment
           /\ e = MIXED_DATETIMES
           /\ self1 = self
       end.
Proof.
  split; [split; vm_compute; reflexivity | ].
  intros self use_cache include_sentiment env Hmiss.
  assert (cached_entry self use_cache env = None) as Hnone.
  { destruct Hmiss as [-> | Hmiss]; [reflexivity | exact Hmiss]. }
  rewrite (cache_miss _ _ _ _ Hnone).
  destruct (fetch_market_news self include_sentiment env)
    as [[[news | e] self1] started] eqn:Hfetch.
  - apply fetch_return in Hfetch as (Hret & _ & Hcache & Httl & ->).
    split; [reflexivity | ]. split; [exact Hret | ].
    assert (_cache self1 !! cache_key = Some (now_store env, articles news))
      as Hentry by (rewrite Hcache; apply lookup_insert_eq).
    split; [exact Hentry | ]. split.
    + intros k Hk. rewrite Hcache. apply lookup_insert_ne. congruence.
    + intros include2 env2 Hfresh.
      rewrite (cache_hit _ _ _ _ _ Hentry Hfresh).
      split; [eexists; split; reflexivity | ]. split; reflexivity.
  - apply fetch_raise in Hfetch as (Hraise & -> & ->).
    split; [reflexivity | ]. split; [ | reflexivity].
    apply deduplicate_raise in Hraise as [-> _]. reflexivity.
Qed.

(** A call that finds an entry as old as the TTL, or older, fetches
    again. *)
Lemma expired_cache_fetches (self : NewsAggregator) (include_sentiment : bool)
    (env : Env) (cached_time : datetime) (cached_data : list NewsArticle) :
  _cache self !! cache_key = Some (cached_time, cached_data) ->
  _cache_ttl self <= now_check env - cached_time ->
  get_market_news self true include_sentiment env
  = fetch_market_news self include_sentiment env.
Proof.
  intros Hentry Hold. apply cache_miss. unfold cached_entry.
  rewrite Hentry. apply Z.ltb_ge in Hold. rewrite Hold. reflexivity.
Qed.

Lemma expired_cache_fetches_witness :
  _cache_ttl aggregator_cached_old <= now_check (env_rss_new 300000000) - 0
  /\ get_market_news aggregator_cached_old true true (env_rss_new 300000000)
     = fetch_market_news aggregator_cached_old true (env_rss_new 300000000).
Proof.
  split; [vm_compute; discriminate | ].
  apply (expired_cache_fetches aggregator_cached_old true
           (env_rss_new 300000000) 0 [report_old]).
  - reflexivity.
  - vm_compute. discriminate.
Defined.

Lemma latest_retained_when_sorted_witness :
  StronglySorted
    (fun a b => instant (published_at b) <= instant (published_at a))
    [report_new; report_old]
  /\ _deduplicate [report_new; report_old] = Return [report_new]
  /\ retains_latest [report_new; report_old].
Proof.
  assert (StronglySorted
            (fun a b => instant (published_at b) <= instant (published_at a))
            [report_new; report_old]) as Hsorted.
  { repeat constructor. vm_compute. discriminate. }
  split; [exact Hsorted | ].
  split; [vm_compute; reflexivity | ].
  exact (latest_retained_when_sorted [report_new; report_old] Hsorted).
Defined.

End NewsFacts.

(** ** The order of the floats *)

Module FloatFacts.
Import FloatOrder.

Lemma SFcompare_rank (f1 f2 : spec_float) :
  SFcompare f1 f2 =
  match rank f1, rank f2 with
  | Some a, Some b => Some (lex a b)
  | _, _ => None
  end.
Proof.
  destruct f1 as [s1 | s1 | | s1 m1 e1], f2 as [s2 | s2 | | s2 m2 e2];
    try destruct s1; try destruct s2; try reflexivity;
    unfold lex; simpl.
  - rewrite Z.compare_opp, (Z.compare_antisym e1 e2).
    destruct (e1 ?= e2); reflexivity.
Qed.

Lemma lex_refl (a : Z * Z * Z) : lex a a = Eq.
Proof. unfold lex. rewrite !Z.compare_refl. reflexivity. Qed.

(** The three outcomes of [lex] in terms of the components. *)
Lemma lex_spec (a b : Z * Z * Z) :
  match lex a b with
  | Eq => a = b
  | Lt => a.1.1 < b.1.1
          \/ (a.1.1 = b.1.1 /\ (a.1.2 < b.1.2 \/ (a.1.2 = b.1.2 /\ a.2 < b.2)))
  | Gt => b.1.1 < a.1.1
          \/ (a.1.1 = b.1.1 /\ (b.1.2 < a.1.2 \/ (a.1.2 = b.1.2 /\ b.2 < a.2)))
  end.
Proof.
  destruct a as [[a1 a2] a3], b as [[b1 b2] b3]. unfold lex. simpl.
  destruct (Z.compare_spec a1 b1) as [-> | H1 | H1]; [ | lia | lia].
  destruct (Z.compare_spec a2 b2) as [-> | H2 | H2]; [ | lia | lia].
  destruct (Z.compare_spec a3 b3) as [-> | H3 | H3]; [reflexivity | lia | lia].
Qed.

Lemma fle_rank (x y : float) :
  fle x y <->
  exists a b, rank (Prim2SF x) = Some a /\ rank (Prim2SF y) = Some b
              /\ lex a b <> Gt.
Proof.
  unfold fle. rewrite leb_spec. unfold SFleb. rewrite SFcompare_rank.
  destruct (rank (Prim2SF x)) as [a | ], (rank (Prim2SF y)) as [b | ].
  - split.
    + intros H. exists a, b. repeat split. destruct (lex a b); congruence.
    + intros (a' & b' & Ha & Hb & H). inversion Ha; inversion Hb; subst.
      destruct (lex a' b'); congruence.
  - split; [discriminate | intros (? & ? & _ & ? & _); discriminate].
  - split; [discriminate | intros (? & ? & ? & _); discriminate].
  - split; [discriminate | intros (? & ? & ? & _); discriminate].
Qed.

Lemma flt_rank (x y : float) :
  flt x y <->
  exists a b, rank (Prim2SF x) = Some a /\ rank (Prim2SF y) = Some b
              /\ lex a b = Lt.
Proof.
  unfold flt. rewrite ltb_spec. unfold SFltb. rewrite SFcompare_rank.
  destruct (rank (Prim2SF x)) as [a | ], (rank (Prim2SF y)) as [b | ].
  - split.
    + intros H. exists a, b. repeat split. destruct (lex a b); congruence.
    + intros (a' & b' & Ha & Hb & H). inversion Ha; inversion Hb; subst.
      rewrite H. reflexivity.
  - split; [discriminate | intros (? & ? & _ & ? & _); discriminate].
  - split; [discriminate | intros (? & ? & ? & _); discriminate].
  - split; [discriminate | intros (? & ? & ? & _); discriminate].
Qed.

Lemma feq_rank (x y : float) :
  (x =? y)%float = true <->
  exists a, rank (Prim2SF x) = Some a /\ rank (Prim2SF y) = Some a.
Proof.
  rewrite FloatAxioms.eqb_spec. unfold SFeqb. rewrite SFcompare_rank.
  destruct (rank (Prim2SF x)) as [a | ], (rank (Prim2SF y)) as [b | ].
  - split.
    + intros H. exists a. split; [reflexivity | ].
      pose proof (lex_spec a b) as Hs. destruct (lex a b); congruence.
    + intros (a' & Ha & Hb). inversion Ha; inversion Hb; subst.
      rewrite lex_refl. reflexivity.
  - split; [discriminate | intros (? & _ & ?); discriminate].
  - split; [discriminate | intros (? & ? & _); discriminate].
  - split; [discriminate | intros (? & ? & _); discriminate].
Qed.

Lemma number_rank (x : float) :
  number x <-> exists a, rank (Prim2SF x) = Some a.
Proof.
  unfold number. rewrite feq_rank. split.
  - intros (a & Ha & _). eauto.
  - intros (a & Ha). eauto.
Qed.

(** Destructs the comparisons of the context into facts on ranks, and
    closes the goal by arithmetic on the components. *)
Ltac rank_facts :=
  repeat match goal with
  | H : fle _ _ |- _ => apply fle_rank in H as (? & ? & ? & ? & H)
  | H : flt _ _ |- _ => apply flt_rank in H as (? & ? & ? & ? & H)
  | H : number _ |- _ => apply number_rank in H as (? & H)
  | H : (_ =? _)%float = true |- _ => apply feq_rank in H as (? & ? & H)
  end;
  repeat match goal with
  | H1 : ?r = Some ?a, H2 : ?r = Some ?b |- _ =>
      assert (b = a) by congruence; subst b; clear H2
  end.

Lemma flt_fle (x y : float) : flt x y -> fle x y.
Proof.
  intros H. rank_facts. apply fle_rank. eexists _, _.
  split; [eassumption | ]. split; [eassumption | ]. congruence.
Qed.

Lemma feq_fle (x y : float) : (x =? y)%float = true -> fle x y.
Proof.
  intros H. rank_facts. apply fle_rank. eexists _, _.
  split; [eassumption | ]. split; [eassumption | ].
  rewrite lex_refl. discriminate.
Qed.

Lemma fle_number (x y : float) : fle x y -> number x /\ number y.
Proof. intros H. rank_facts. split; apply number_rank; eauto. Qed.

Lemma flt_number (x y : float) : flt x y -> number x /\ number y.
Proof. intros H. rank_facts. split; apply number_rank; eauto. Qed.

(** On numbers the order is total: what is not above is at most. *)
Lemma not_flt_fle (x y : float) :
  number x -> number y -> (y <? x)%float = false -> fle x y.
Proof.
  intros Hx Hy Hnot. rank_facts. apply fle_rank. eexists _, _.
  split; [eassumption | ]. split; [eassumption | ].
  intros Hgt. assert (flt y x) as Hlt; [ | unfold flt in Hlt; congruence].
  apply flt_rank. eexists _, _.
  split; [eassumption | ]. split; [eassumption | ].
  match goal with
  | H : lex ?a ?b = Gt |- lex ?b ?a = Lt =>
      pose proof (lex_spec a b) as H1; pose proof (lex_spec b a) as H2;
      rewrite H in H1; destruct (lex b a); [subst; lia | reflexivity | lia]
  end.
Qed.

Lemma fle_trans (x y z : float) : fle x y -> fle y z -> fle x z.
Proof.
  intros Hxy Hyz. rank_facts. apply fle_rank. eexists _, _.
  split; [eassumption | ]. split; [eassumption | ].
  match goal with
  | H1 : lex ?a ?b <> Gt, H2 : lex ?b ?c <> Gt |- lex ?a ?c <> Gt =>
      pose proof (lex_spec a b) as S1; pose proof (lex_spec b c) as S2;
      pose proof (lex_spec a c) as S3;
      destruct (lex a b); try congruence; destruct (lex b c); try congruence;
      destruct (lex a c); try discriminate; subst; lia
  end.
Qed.

Lemma flt_fle_trans (x y z : float) : flt x y -> fle y z -> flt x z.
Proof.
  intros Hxy Hyz. rank_facts. apply flt_rank. eexists _, _.
  split; [eassumption | ]. split; [eassumption | ].
  match goal with
  | H1 : lex ?a ?b = Lt, H2 : lex ?b ?c <> Gt |- lex ?a ?c = Lt =>
      pose proof (lex_spec a b) as S1; pose proof (lex_spec b c) as S2;
      pose proof (lex_spec a c) as S3; rewrite H1 in S1;
      destruct (lex b c); try congruence;
      destruct (lex a c); try reflexivity; subst; lia
  end.
Qed.

End FloatFacts.

(** ** Costs, sizing and drawdown *)

Module RiskMoreFacts.
Import Risk RiskMore FloatOrder FloatFacts.

Lemma bind_raise {A B : Type} (m : result A) (f : A -> result B) (e : exn) :
  (m ≫= f) = Raise e ->
  m = Raise e \/ exists a : A, m = Return a /\ f a = Raise e.
Proof.
  destruct m as [a | e']; simpl; intros H.
  - right. exists a. split; [reflexivity | exact H].
  - left. inversion H. reflexivity.
Qed.

Lemma zero_rank (x : float) :
  (x =? 0)%float = true -> exists s, Prim2SF x = S754_zero s.
Proof.
  intros H. apply feq_rank in H as (a & Hx & H0).
  vm_compute in H0. inversion H0; subst a.
  destruct (Prim2SF x) as [s | s | | s m e]; simpl in Hx.
  - eauto.
  - destruct s; discriminate Hx.
  - discriminate Hx.
  - destruct s; discriminate Hx.
Qed.

(** The guard [peak_equity <= 0] excludes a zero divisor. *)
Lemma not_fle_zero_nonzero (x : float) :
  (x <=? 0)%float = false -> (x =? 0)%float = false.
Proof.
  intros H. destruct (x =? 0)%float eqn:E; [ | reflexivity].
  apply feq_fle in E. unfold fle in E. congruence.
Qed.

(** [check_drawdown] returns for every input, also when the peak is zero:
    the division is made behind the guard.  A peak that is not positive
    gives [(False, 0.0)]. *)
Theorem check_drawdown_returns (current_equity peak_equity max_drawdown : float) :
  exists limit_reached current_drawdown,
    check_drawdown current_equity peak_equity max_drawdown
      = Return (limit_reached, current_drawdown)
    /\ ((peak_equity <=? 0)%float = true ->
        limit_reached = false /\ current_drawdown = 0%float)
    /\ ((peak_equity <=? 0)%float = false ->
        current_drawdown = ((peak_equity - current_equity) / peak_equity)%float
        /\ limit_reached = (max_drawdown <=? current_drawdown)%float).
Proof.
  unfold check_drawdown.
  destruct (peak_equity <=? 0)%float eqn:Hguard.
  - exists false, 0%float. repeat split; try discriminate; reflexivity.
  - unfold truediv. rewrite (not_fle_zero_nonzero _ Hguard). simpl.
    eexists _, _. split; [reflexivity | ].
    split; [discriminate | ]. intros _. split; reflexivity.
Qed.

Lemma int_of_float_raise (x : float) (e : exn) :
  int_of_float x = Raise e -> conversion_error e.
Proof.
  unfold int_of_float.
  destruct (Prim2SF x); intros H; inversion H; exact I.
Qed.

Lemma float_of_int_raise (n : Z) (e : exn) :
  float_of_int n = Raise e -> conversion_error e.
Proof.
  unfold float_of_int.
  destruct (binary_normalize prec emax n 0 false);
    intros H; inversion H; exact I.
Qed.

Lemma mul_int_float_raise (n : Z) (x : float) (e : exn) :
  mul_int_float n x = Raise e -> conversion_error e.
Proof.
  unfold mul_int_float. intros H.
  apply bind_raise in H as [H | (f & _ & H)].
  - eapply float_of_int_raise, H.
  - discriminate H.
Qed.

Lemma stock_cost_raise (exchange : string) (quantity : Z) (price : float)
    (e : exn) :
  calculate_stock_cost exchange quantity price = Raise e -> conversion_error e.
Proof.
  unfold calculate_stock_cost. intros H.
  apply bind_raise in H as [H | (order_value & _ & H)].
  { eapply mul_int_float_raise, H. }
  apply bind_raise in H as [H | (commission & _ & H)]; [ | discriminate H].
  destruct (str_in exchange ["XETRA"; "IBIS"]); [discriminate H | ].
  destruct (str_in exchange ["NYSE"; "NASDAQ"; "ARCA"; "SMART"]).
  - apply bind_raise in H as [H | (per_share & _ & H)]; [ | discriminate H].
    eapply mul_int_float_raise, H.
  - destruct (str_in exchange ["LSE"; "LSEETF"]); discriminate H.
Qed.

Lemma div_by_nan (x y : float) :
  Prim2SF y = S754_nan -> Prim2SF (x / y) = S754_nan.
Proof.
  intros Hy. rewrite div_spec, Hy. unfold SF64div.
  destruct (Prim2SF x); reflexivity.
Qed.

(** With an entry price of zero the risk per share is zero or not a
    number: the stop-loss guard or [int()] stops the sizing before the
    division by the entry price. *)
Lemma zero_entry_risk (entry k : float) :
  (entry =? 0)%float = true ->
  (entry - entry * k <=? 0)%float = true
  \/ Prim2SF (entry - entry * k) = S754_nan.
Proof.
  intros Hzero. apply zero_rank in Hzero as (s & Hentry).
  assert (Prim2SF (entry - entry * k) = S754_nan
          \/ exists s', Prim2SF (entry - entry * k) = S754_zero s') as [H | (s' & H)].
  { rewrite sub_spec, mul_spec, Hentry. unfold SF64sub, SF64mul.
    destruct (Prim2SF k) as [sk | sk | | sk mk ek]; simpl.
    - right. destruct s, sk; simpl; eauto.
    - left. reflexivity.
    - left. reflexivity.
    - right. destruct s, sk; simpl; eauto. }
  - right. exact H.
  - left. rewrite leb_spec, H. reflexivity.
Qed.

Lemma scaled_shares_raise (self : RiskManager) (entry k signal : float)
    (e : exn) :
  (entry - entry * k <=? 0)%float = false ->
  scaled_shares self entry (entry - entry * k)%float signal = Raise e ->
  conversion_error e.
Proof.
  intros Hguard. unfold scaled_shares, truediv.
  rewrite (not_fle_zero_nonzero _ Hguard). simpl. intros H.
  apply bind_raise in H as [H | (n1 & Hn1 & H)].
  { eapply int_of_float_raise, H. }
  destruct (entry =? 0)%float eqn:Hentry.
  { exfalso. apply zero_entry_risk with (k := k) in Hentry as [Hle | Hnan].
    - congruence.
    - unfold int_of_float in Hn1.
      rewrite (div_by_nan _ _ Hnan) in Hn1. discriminate Hn1. }
  simpl in H.
  apply bind_raise in H as [H | (n2 & _ & H)].
  { eapply int_of_float_raise, H. }
  apply bind_raise in H as [H | (scaled & _ & H)].
  { eapply mul_int_float_raise, H. }
  eapply int_of_float_raise, H.
Qed.

(** [calculate_position_size] can raise, but only the [ValueError] and
    [OverflowError] of a conversion between [int] and [float]: its two
    divisions never divide by zero, since the stop-loss guard and [int()]
    stop it first. *)
Theorem sizing_raises_conversion_errors self symbol entry strategy signal
    exchange cur vol e :
  calculate_position_size self symbol entry strategy signal exchange cur vol
    = Raise e ->
  conversion_error e /\ forall msg, e <> ZeroDivisionError msg.
Proof.
  intros H. assert (conversion_error e) as He.
  { unfold calculate_position_size in H.
    destruct (max_portfolio_risk self <=? cur)%float; [discriminate H | ].
    destruct (stop_take_pct strategy vol) as [sl tp].
    destruct (_ <=? 0)%float eqn:Hguard; [discriminate H | ].
    apply bind_raise in H as [H | (n & _ & H)].
    { eapply scaled_shares_raise; eassumption. }
    destruct (n <? 1); [discriminate H | ].
    apply bind_raise in H as [H | (pv & _ & H)].
    { eapply mul_int_float_raise, H. }
    apply bind_raise in H as [H | (ra & _ & H)].
    { eapply mul_int_float_raise, H. }
    apply bind_raise in H as [H | (costs & _ & H)].
    { eapply stock_cost_raise, H. }
    destruct (negb _); discriminate H. }
  split; [exact He | ]. intros msg ->. exact He.
Qed.

Lemma sizing_raises_conversion_errors_witness :
  calculate_position_size (new_RiskManager 50000) "AAPL" infinity "momentum"
    0.8 "NASDAQ" 0.02 None
  = Raise (ValueError "cannot convert float NaN to integer")
  /\ conversion_error (ValueError "cannot convert float NaN to integer").
Proof.
  split; [vm_compute; reflexivity | ].
  apply (sizing_raises_conversion_errors (new_RiskManager 50000) "AAPL"
           infinity "momentum" 0.8 "NASDAQ" 0.02 None).
  vm_compute. reflexivity.
Defined.

Lemma bind_return' {A B : Type} (m : result A) (f : A -> result B) (b : B) :
  (m ≫= f) = Return b -> exists a : A, m = Return a /\ f a = Return b.
Proof.
  destruct m as [a | e]; simpl; intros H.
  - exists a. split; [reflexivity | exact H].
  - discriminate H.
Qed.

Lemma max_at_least (a b : float) : number a -> fle a (Py.max a b).
Proof.
  intros Ha. unfold Py.max. destruct (a <? b)%float eqn:E.
  - apply flt_fle. exact E.
  - apply feq_fle. exact Ha.
Qed.

Lemma xetra_at_most (v : float) : fle (Py.max XETRA_MIN (Py.min v XETRA_MAX)) XETRA_MAX.
Proof.
  unfold Py.max, Py.min. destruct (XETRA_MAX <? v)%float eqn:Hcap.
  - vm_compute. reflexivity.
  - destruct (XETRA_MIN <? v)%float eqn:Hmin.
    + apply not_flt_fle; [ | reflexivity | exact Hcap].
      apply flt_number in Hmin. apply Hmin.
    + vm_compute. reflexivity.
Qed.

(** The commission of a stock order that [calculate_stock_cost] returns is
    never below the minimum of its exchange class (4 for XETRA and IBIS, 2
    for the US exchanges, 6 for LSE, 4 elsewhere), and for XETRA and IBIS
    never above the cap of 99, whatever the quantity and the price. *)
Theorem stock_commission_bounds (exchange : string) (quantity : Z)
    (price : float) (costs : TradeCosts) :
  calculate_stock_cost exchange quantity price = Return costs ->
  let minimum :=
    if str_in exchange ["XETRA"; "IBIS"] then XETRA_MIN
    else if str_in exchange ["NYSE"; "NASDAQ"; "ARCA"; "SMART"] then US_MIN
    else if str_in exchange ["LSE"; "LSEETF"] then UK_MIN
    else 4.0%float in
  (minimum <=? commission costs)%float = true
  /\ (str_in exchange ["XETRA"; "IBIS"] = true ->
      (commission costs <=? XETRA_MAX)%float = true).
Proof.
  unfold calculate_stock_cost. intros H.
  apply bind_return' in H as (order_value & _ & H).
  apply bind_return' in H as (c & Hc & H).
  inversion H; subst costs; clear H. cbn [commission].
  destruct (str_in exchange ["XETRA"; "IBIS"]).
  { inversion Hc; subst c. split.
    - apply max_at_least. reflexivity.
    - intros _. apply xetra_at_most. }
  split; [ | discriminate].
  destruct (str_in exchange ["NYSE"; "NASDAQ"; "ARCA"; "SMART"]).
  { apply bind_return' in Hc as (per_share & _ & Hc). inversion Hc; subst c.
    apply max_at_least. reflexivity. }
  destruct (str_in exchange ["LSE"; "LSEETF"]);
    inversion Hc; subst c; apply max_at_least; reflexivity.
Qed.

Lemma stock_commission_bounds_witness :
  exists costs,
    calculate_stock_cost "XETRA" 100000 50 = Return costs
    /\ commission costs = 99%float
    /\ (XETRA_MIN <=? commission costs)%float = true
    /\ (commission costs <=? XETRA_MAX)%float = true.
Proof.
  eexists. split; [vm_compute; reflexivity | ].
  split; [reflexivity | ].
  pose proof (stock_commission_bounds "XETRA" 100000 50 _
                ltac:(vm_compute; reflexivity)) as [Hmin Hmax].
  split; [exact Hmin | exact (Hmax eq_refl)].
Defined.

(** No float is above infinity. *)
Lemma not_above_infinity (x : float) : (infinity <? x)%float = false.
Proof.
  destruct (infinity <? x)%float eqn:E; [ | reflexivity].
  apply flt_rank in E as (a & b & Ha & Hb & Hlt).
  vm_compute in Ha. inversion Ha; subst a.
  pose proof (lex_spec (2, 0, 0) b) as Hs. rewrite Hlt in Hs.
  destruct (Prim2SF x) as [s | s | | s m e]; simpl in Hb;
    try destruct s; inversion Hb; subst b; simpl in Hs; lia.
Qed.

(** An order of no shares is never viable: its order value is not
    positive, so its breakeven move is infinite, and no expected return
    exceeds twice that. *)
Theorem empty_order_never_viable (exchange : string) (price expected : float) :
  exists costs,
    calculate_stock_cost exchange 0 price = Return costs
    /\ breakeven_move costs = infinity
    /\ is_trade_viable costs expected 2.0 = false.
Proof.
  unfold calculate_stock_cost.
  assert (mul_int_float 0 price = Return (0 * price)%float) as -> by reflexivity.
  assert ((0 <? 0 * price)%float = false) as Hvalue.
  { rewrite ltb_spec, mul_spec. unfold SF64mul.
    change (Prim2SF 0) with (S754_zero false).
    destruct (Prim2SF price) as [s | s | | s m e]; try destruct s; reflexivity. }
  simpl mbind. rewrite Hvalue.
  repeat match goal with
  | |- context [if ?b then mret _ else _] => destruct b
  end;
    simpl; eexists; (split; [reflexivity | ]); (split; [reflexivity | ]);
    unfold is_trade_viable; cbn [breakeven_move];
    change (infinity * 2)%float with infinity; apply not_above_infinity.
Qed.

(** For an option order the breakeven move is 0, so the viability check
    passes exactly when the expected return is positive, whatever the
    commission and the spread. *)
Theorem option_viability (exchange : string) (contracts : Z)
    (costs : TradeCosts) (expected : float) :
  calculate_option_cost exchange contracts = Return costs ->
  breakeven_move costs = 0%float
  /\ is_trade_viable costs expected 2.0 = (0 <? expected)%float.
Proof.
  unfold calculate_option_cost. intros H.
  apply bind_return' in H as (c & _ & H).
  apply bind_return' in H as (sp & _ & H).
  inversion H; subst costs. split; reflexivity.
Qed.

Lemma option_viability_witness :
  exists costs,
    calculate_option_cost "EUREX" 3 = Return costs
    /\ commission costs = 6%float
    /\ total_roundtrip costs = 42%float
    /\ is_trade_viable costs 0.001 2.0 = true.
Proof.
  eexists. split; [vm_compute; reflexivity | ].
  split; [reflexivity | ]. split; [reflexivity | ].
  rewrite (proj2 (option_viability "EUREX" 3 _ 0.001
                    ltac:(vm_compute; reflexivity))).
  reflexivity.
Defined.

End RiskMoreFacts.

(** ** The trading cycle *)

Module BotMoreFacts.
Import News Analyzer Bot BotMore.

(** A trading window whose end lies before its start, as one over
    midnight does, is never open. *)
Theorem window_over_midnight_never_open (config : BotConfig) (now : Z) :
  trading_end config < trading_start config ->
  _is_trading_hours config now = false.
Proof.
  intros Hwindow. unfold _is_trading_hours.
  destruct (trading_start config <=? now) eqn:Hs; [ | reflexivity].
  apply Z.leb_le in Hs. simpl. apply Z.leb_gt. lia.
Qed.

Lemma window_over_midnight_never_open_witness :
  trading_end config_night < trading_start config_night
  /\ _is_trading_hours config_night (23 * hour) = false
  /\ _is_trading_hours config_day (9 * hour) = true.
Proof.
  split; [reflexivity | ]. split; [ | reflexivity].
  apply window_over_midnight_never_open. reflexivity.
Defined.

(** [_calculate_portfolio_risk] raises exactly for a portfolio that is not
    empty under a capital of zero, and then a [ZeroDivisionError]; an empty
    portfolio has the risk 0.0 whatever the capital. *)
Theorem portfolio_risk_raises (config : BotConfig) (portfolio : list Position) :
  (portfolio = [] -> _calculate_portfolio_risk config portfolio = Return 0%float)
  /\ (portfolio <> [] ->
      if (capital config =? 0)%float
      then _calculate_portfolio_risk config portfolio
           = Raise (ZeroDivisionError "float division by zero")
      else exists risk, _calculate_portfolio_risk config portfolio = Return risk).
Proof.
  split.
  - intros ->. reflexivity.
  - intros Hheld. destruct portfolio as [ | held rest]; [congruence | ].
    unfold _calculate_portfolio_risk, truediv.
    destruct (capital config =? 0)%float; [reflexivity | eauto].
Qed.



(** Outside CRISIS a position whose average cost is not positive is never
    closed: its P&L counts as 0, which lies within the thresholds of every
    strategy. *)
Theorem no_cost_basis_never_closed (current_regime : RegimeAnalysis)
    (held : Position) :
  regime current_regime <> CRISIS ->
  (0 <? averageCost held)%float = false ->
  _check_exit_conditions current_regime held (unrealized_pnl_pct_of held)
  = (false, "").
Proof.
  intros Hregime Hcost. unfold unrealized_pnl_pct_of. rewrite Hcost.
  unfold _check_exit_conditions.
  destruct (regime current_regime); try congruence;
    destruct (str_eq (recommended_strategy current_regime) "momentum");
    reflexivity.
Qed.

Lemma no_cost_basis_never_closed_witness :
  _check_exit_conditions (analysis_with RANGE_BOUND "momentum")
    {| symbol := "AAPL"; position := 10; marketPrice := 50;
       averageCost := 0; unrealizedPNL := 500 |}
    (unrealized_pnl_pct_of
       {| symbol := "AAPL"; position := 10; marketPrice := 50;
          averageCost := 0; unrealizedPNL := 500 |})
  = (false, "").
Proof.
  apply (no_cost_basis_never_closed (analysis_with RANGE_BOUND "momentum")).
  - discriminate.
  - reflexivity.
Defined.

Lemma truncated_reply_malformed :
  malformed example_loads example_float_of_str "```json {".
Proof.
  intros (text & d & Htext & Hdata & _).
  vm_compute in Htext. inversion Htext; subst text.
  vm_compute in Hdata. discriminate Hdata.
Qed.

(** After a reply that cannot be parsed the bot still looks for new
    positions whenever the cash suffices: the fallback has the regime
    HIGH_UNCERTAINTY and the modifier 0.25, which is not below the
    threshold of 0.25. *)
Theorem parse_failure_still_seeks (json_loads : string -> result pyval)
    (float_of_str : string -> result float) (config : BotConfig)
    (response : string) (market_news : MarketNews) (now : datetime)
    (available_cash : float) :
  malformed json_loads float_of_str response ->
  _should_seek_opportunities config
    (_parse_response json_loads float_of_str response market_news now)
    available_cash
  = negb (available_cash <? min_trade_capital config)%float.
Proof.
  intros Hbad. unfold _parse_response.
  destruct (try_parse json_loads float_of_str response market_news now)
    as [analysis | e] eqn:Htry.
  - exfalso. apply Hbad. eapply AnalyzerFacts.try_parse_well_formed, Htry.
  - unfold _should_seek_opportunities. simpl.
    destruct (available_cash <? min_trade_capital config)%float; reflexivity.
Qed.

Lemma parse_failure_still_seeks_witness :
  _should_seek_opportunities config_day
    (_parse_response example_loads example_float_of_str "```json {"
       (_build_market_news [] 0) 0) 500
  = true.
Proof.
  rewrite (parse_failure_still_seeks example_loads example_float_of_str
             config_day "```json {" (_build_market_news [] 0) 0 500
             truncated_reply_malformed).
  reflexivity.
Defined.

(** [_get_available_cash] skips the account values that are not the
    AvailableFunds in EUR: without such an entry the cash is 0.0, so that
    no opportunity is sought under a positive minimum trade capital; with
    one, the cash is the conversion of the first such entry. *)
Theorem available_cash_first_eur_entry (float_of_str : string -> result float)
    (skipped : list AccountValue) :
  Forall (fun av => is_available_funds av = false) skipped ->
  _get_available_cash float_of_str skipped = Return 0%float
  /\ (forall av rest,
        is_available_funds av = true ->
        _get_available_cash float_of_str (skipped ++ av :: rest)
        = float_of_str (value av))
  /\ (forall config current_regime,
        (0 <? min_trade_capital config)%float = true ->
        _should_seek_opportunities config current_regime 0 = false).
Proof.
  intros Hskip. split; [ | split].
  - induction Hskip as [ | av skipped Hav _ IH]; [reflexivity | ].
    simpl. rewrite Hav. exact IH.
  - intros av rest Hmatch.
    induction Hskip as [ | av' skipped Hav _ IH]; simpl.
    + rewrite Hmatch. reflexivity.
    + rewrite Hav. exact IH.
  - intros config current_regime Hmin. unfold _should_seek_opportunities.
    rewrite Hmin. destruct (regime current_regime); reflexivity.
Qed.

Lemma available_cash_first_eur_entry_witness :
  Forall (fun av => is_available_funds av = false)
    [{| tag := "AvailableFunds"; currency := "USD"; value := "1000.0" |};
     {| tag := "NetLiquidation"; currency := "EUR"; value := "900.0" |}]
  /\ _get_available_cash example_float_of_str
       [{| tag := "AvailableFunds"; currency := "USD"; value := "1000.0" |};
        {| tag := "NetLiquidation"; currency := "EUR"; value := "900.0" |}]
     = Return 0%float.
Proof.
  assert (Forall (fun av => is_available_funds av = false)
            [{| tag := "AvailableFunds"; currency := "USD"; value := "1000.0" |};
             {| tag := "NetLiquidation"; currency := "EUR"; value := "900.0" |}])
    as Hskip by (repeat constructor).
  split; [exact Hskip | ].
  exact (proj1 (available_cash_first_eur_entry example_float_of_str _ Hskip)).
Defined.

End BotMoreFacts.

(** ** Reading the fused news *)

Module NewsMoreFacts.
Import News NewsMore NewsFacts.

(** A list that is ordered newest first is left as it is by the sort. *)
Lemma sort_desc_sorted_id {A : Type} (key : A -> Z) (l : list A) :
  StronglySorted (fun a b => key b <= key a) l -> sort_desc key l = l.
Proof.
  induction 1 as [ | x l Hl IH Hx]; simpl; [reflexivity | ].
  rewrite IH. destruct l as [ | y l']; [reflexivity | ].
  simpl. apply Forall_cons in Hx as [Hy _].
  apply Z.ltb_ge in Hy. rewrite Hy. reflexivity.
Qed.

(** The loop of [_deduplicate] keeps a list whose keys are distinct and
    new. *)
Lemma dedup_loop_distinct (l : list NewsArticle) (seen : gset string)
    (acc : list NewsArticle) :
  NoDup (normalized <$> l) ->
  (forall a, a ∈ l -> normalized a ∉ seen) ->
  (foldl dedup_step (seen, acc) l).2 = acc ++ l.
Proof.
  revert seen acc. induction l as [ | x l IH]; intros seen acc Hnodup Hnew.
  - simpl. rewrite app_nil_r. reflexivity.
  - simpl. apply NoDup_cons in Hnodup as [Hx Hnodup].
    destruct (decide (normalized x ∈ seen)) as [Hin | _].
    + exfalso. apply (Hnew x); [apply elem_of_cons; left; reflexivity | exact Hin].
    + rewrite IH; [rewrite <- app_assoc; reflexivity | exact Hnodup | ].
      intros a Ha Hin. apply elem_of_union in Hin as [Hin | Hin].
      * apply elem_of_singleton in Hin. apply Hx.
        rewrite <- Hin. apply list_elem_of_fmap. exists a. split; [reflexivity | exact Ha].
      * apply (Hnew a); [apply elem_of_cons; right; exact Ha | exact Hin].
Qed.

(** Deduplicating a deduplicated list changes nothing: the list that
    [_deduplicate] returns is returned as it is when it is deduplicated
    again. *)
Theorem deduplicate_idempotent (articles : list NewsArticle) :
  (unique ← _deduplicate articles; _deduplicate unique)
  = _deduplicate articles.
Proof.
  destruct (_deduplicate articles) as [unique | e] eqn:Hret; [ | reflexivity].
  cbn [mbind result_bind].
  pose proof (deduplicate_nodup _ _ Hret) as Hnodup.
  pose proof (deduplicate_sorted _ _ Hret) as Hsorted.
  destruct (deduplicate_return _ _ Hret) as [_ Hkind].
  rewrite deduplicate_spec. cbv zeta.
  rewrite dedup_loop_distinct; [ | exact Hnodup | ].
  - simpl app. rewrite Hkind. f_equal.
    apply (sort_desc_sorted_id (fun a => instant (published_at a))).
    exact Hsorted.
  - intros a _ Hin. apply not_elem_of_empty in Hin. exact Hin.
Qed.

(** The comprehension of [get_recent] returns exactly when every datetime
    is naive, and then the articles after the cutoff. *)
Lemma published_after_spec (cutoff : datetime) (l : list NewsArticle) :
  published_after cutoff l
  = if forallb (fun a => negb (aware (published_at a))) l
    then Return (List.filter (fun a => cutoff <? instant (published_at a)) l)
    else Raise MIXED_DATETIMES.
Proof.
  induction l as [ | x l IH]; [reflexivity | ].
  cbn [published_after forallb List.filter]. rewrite IH.
  unfold lt_datetime. cbn [aware naive instant].
  destruct (aware (published_at x)); [reflexivity | ].
  cbn [Bool.eqb negb andb mbind result_bind].
  destruct (forallb (fun a => negb (aware (published_at a))) l);
    [ | reflexivity].
  cbn [mbind result_bind mret result_ret].
  destruct (cutoff <? instant (published_at x)); reflexivity.
Qed.

Lemma get_recent_return (news : MarketNews) (n : Z) (now : datetime)
    (recent : list NewsArticle) :
  get_recent news n now = Return recent ->
  recent = List.filter (fun a => now - hours n <? instant (published_at a))
             (articles news)
  /\ forallb (fun a => negb (aware (published_at a))) (articles news) = true.
Proof.
  unfold get_recent. rewrite published_after_spec.
  destruct (forallb _ (articles news)); [ | discriminate].
  intros [= <-]. split; reflexivity.
Qed.

Lemma get_recent_raise (news : MarketNews) (n : Z) (now : datetime) (e : exn) :
  get_recent news n now = Raise e ->
  e = MIXED_DATETIMES
  /\ exists a, a ∈ articles news /\ aware (published_at a) = true.
Proof.
  unfold get_recent. rewrite published_after_spec.
  destruct (forallb _ (articles news)) eqn:E; [discriminate | ].
  intros [= <-]. split; [reflexivity | ].
  induction (articles news) as [ | x l IH]; [discriminate | ].
  simpl in E. apply andb_false_iff in E as [Ex | El].
  - exists x. split; [apply elem_of_cons; left; reflexivity | ].
    apply negb_false_iff, Ex.
  - destruct (IH El) as (a & Ha & Haware).
    exists a. split; [apply elem_of_cons; right; exact Ha | exact Haware].
Qed.

(** On a list that is ordered newest first, the articles after a cutoff
    are a prefix of the list. *)
Lemma recent_prefix (cutoff : Z) (l : list NewsArticle) :
  StronglySorted
    (fun a b => instant (published_at b) <= instant (published_at a)) l ->
  exists k : nat,
    List.filter (fun a => cutoff <? instant (published_at a)) l = take k l.
Proof.
  induction 1 as [ | x l Hl [k IH] Hx].
  - exists 0%nat. reflexivity.
  - simpl. destruct (cutoff <? instant (published_at x)) eqn:E.
    + exists (S k). simpl. rewrite IH. reflexivity.
    + exists 0%nat. apply Z.ltb_ge in E.
      rewrite take_0. clear IH Hl.
      induction l as [ | y l IHl]; [reflexivity | ].
      apply Forall_cons in Hx as [Hy Hx]. simpl.
      assert ((cutoff <? instant (published_at y)) = false) as ->
        by (apply Z.ltb_ge; lia).
      apply IHl, Hx.
Qed.

(** The recent articles of a fused snapshot are its first articles: since
    [_deduplicate] orders them newest first, the list that [get_recent]
    returns is a prefix of the snapshot's list, whatever the window and
    the clock; a wider window returns at least the articles of a narrower
    one.  [get_recent] raises when the snapshot holds an aware datetime. *)
Theorem recent_articles_are_first (all_articles unique : list NewsArticle)
    (built now : datetime) (n : Z) :
  _deduplicate all_articles = Return unique ->
  let news := _build_market_news unique built in
  match get_recent news n now with
  | Return recent =>
      (exists k : nat, recent = take k (articles news))
      /\ (forall a, a ∈ recent <->
                    a ∈ articles news
                    /\ now - hours n < instant (published_at a))
  | Raise e =>
      e = MIXED_DATETIMES
      /\ exists a, a ∈ articles news /\ aware (published_at a) = true
  end
  /\ (forall m recent_n, n <= m ->
        get_recent news n now = Return recent_n ->
        exists recent_m,
          get_recent news m now = Return recent_m
          /\ forall a, a ∈ recent_n -> a ∈ recent_m).
Proof.
  intros Hret news.
  assert (forall n a,
            a ∈ List.filter
                  (fun a => now - hours n <? instant (published_at a))
                  (articles news) <->
            a ∈ articles news /\ now - hours n < instant (published_at a))
    as Hfilter.
  { intros n' a. rewrite !list_elem_of_In, filter_In, Z.ltb_lt. reflexivity. }
  split.
  - destruct (get_recent news n now) as [recent | e] eqn:Hrecent.
    + apply get_recent_return in Hrecent as [-> _]. split.
      * apply recent_prefix. exact (deduplicate_sorted _ _ Hret).
      * intros a. apply Hfilter.
    + exact (get_recent_raise _ _ _ _ Hrecent).
  - intros m recent_n Hnm Hrecent.
    apply get_recent_return in Hrecent as [-> Hnaive].
    exists (List.filter (fun a => now - hours m <? instant (published_at a))
              (articles news)).
    split.
    + unfold get_recent. rewrite published_after_spec, Hnaive. reflexivity.
    + intros a Ha. apply Hfilter. apply Hfilter in Ha as [Ha Hlt].
      split; [exact Ha | ]. unfold hours in *. lia.
Qed.

Lemma recent_articles_are_first_witness :
  _deduplicate [article "B" 1 None; article "A" 3 None]
  = Return [article "A" 3 None; article "B" 1 None]
  /\ get_recent
       (_build_market_news [article "A" 3 None; article "B" 1 None] 0) 0 2
     = Return [article "A" 3 None]
  /\ exists k : nat,
       [article "A" 3 None]
       = take k [article "A" 3 None; article "B" 1 None].
Proof.
  assert (_deduplicate [article "B" 1 None; article "A" 3 None]
          = Return [article "A" 3 None; article "B" 1 None]) as Hret
    by (vm_compute; reflexivity).
  split; [exact Hret | ]. split; [vm_compute; reflexivity | ].
  exact (proj1 (proj1 (recent_articles_are_first
                         [article "B" 1 None; article "A" 3 None]
                         [article "A" 3 None; article "B" 1 None] 0 2 0
                         Hret))).
Defined.

(** An article without a sentiment score does not enter the overall
    sentiment: it is left out of the mean, not counted as zero. *)
Theorem missing_score_left_out (before after : list NewsArticle)
    (a : NewsArticle) (now : datetime) :
  sentiment_score a = None ->
  overall_sentiment (_build_market_news (before ++ a :: after) now)
  = overall_sentiment (_build_market_news (before ++ after) now).
Proof.
  intros Hnone. unfold _build_market_news. cbn [overall_sentiment].
  rewrite !omap_app. simpl. rewrite Hnone. reflexivity.
Qed.

Lemma missing_score_left_out_witness :
  overall_sentiment
    (_build_market_news
       [article "A" 3 (Some 0.5%float); article "B" 2 None;
        article "C" 1 (Some 0.25%float)] 0)
  = 0.375%float.
Proof.
  etransitivity.
  - exact (missing_score_left_out [article "A" 3 (Some 0.5%float)]
             [article "C" 1 (Some 0.25%float)] (article "B" 2 None) 0 eq_refl).
  - vm_compute. reflexivity.
Defined.

(** Without an API key [get_symbol_news] starts no fetch and returns no
    article, whatever the feeds would deliver: the RSS client, which is
    always registered, is not asked for the news of a symbol. *)
Theorem symbol_news_needs_api_key (config : gmap string string)
    (symbol : string) (days_back : Z) (env : SymbolEnv) :
  config_key config "finnhub_key" = None ->
  config_key config "alpha_vantage_key" = None ->
  config_key config "newsapi_key" = None ->
  get_symbol_news (new_NewsAggregator config) symbol days_back env
  = (Return (_build_market_news [] (now_built env)), []).
Proof.
  intros H1 H2 H3. unfold get_symbol_news, symbol_tasks_of.
  cbn [_clients new_NewsAggregator]. unfold _initialize_clients.
  rewrite H1, H2, H3. simpl register.
  rewrite !lookup_insert_ne by discriminate. rewrite lookup_empty.
  destruct (decide (is_Some (@None Client))) as [[c Hc] | _];
    [discriminate Hc | ].
  reflexivity.
Qed.

Lemma symbol_news_needs_api_key_witness :
  get_symbol_news (new_NewsAggregator ∅) "AAPL" 7
    {| gather_symbol := fun _ => Fetched [report_new]; now_built := 0 |}
  = (Return (_build_market_news [] 0), []).
Proof.
  apply (symbol_news_needs_api_key ∅ "AAPL" 7); reflexivity.
Defined.

(** *** The sentiment bands *)

(** The banding of a score keeps the order of the scores: a higher score
    never gets a more bearish sentiment. *)
Theorem sentiment_bands_monotone (x y : float) :
  (x <=? y)%float = true ->
  sentiment_value (_score_to_sentiment x)
  <= sentiment_value (_score_to_sentiment y).
Proof.
  intros Hxy. unfold _score_to_sentiment.
  repeat match goal with
  | |- context [if ?b then _ else _] => destruct b eqn:?
  end; simpl; try lia; exfalso;
  match goal with
  | H1 : (?c <=? x)%float = true, H2 : (?c <=? y)%float = false |- _ =>
      pose proof (FloatFacts.fle_trans c x y H1 Hxy) as H;
      unfold FloatOrder.fle in H; congruence
  | H1 : (y <=? ?c)%float = true, H2 : (x <=? ?c)%float = false |- _ =>
      pose proof (FloatFacts.fle_trans x y c Hxy H1) as H;
      unfold FloatOrder.fle in H; congruence
  end.
Qed.

Lemma sentiment_bands_monotone_witness :
  (0.2 <=? 0.4)%float = true
  /\ _score_to_sentiment 0.2 = BULLISH
  /\ _score_to_sentiment 0.4 = VERY_BULLISH
  /\ sentiment_value (_score_to_sentiment 0.2)
     <= sentiment_value (_score_to_sentiment 0.4).
Proof.
  split; [reflexivity | ]. split; [reflexivity | ]. split; [reflexivity | ].
  apply sentiment_bands_monotone. reflexivity.
Defined.

(** A score that is not a number is NEUTRAL. *)
Lemma nan_is_neutral : _score_to_sentiment nan = NEUTRAL.
Proof. reflexivity. Qed.

(** *** The rankings of [_build_market_news] *)

Lemma count_up_keys (k k' : string) (d : list (string * Z)) :
  k' ∈ (count_up k d).*1 <-> k' = k \/ k' ∈ d.*1.
Proof.
  induction d as [ | [k0 n0] d IH]; simpl.
  - rewrite list_elem_of_singleton. split; [auto | ].
    intros [H | H]; [exact H | apply not_elem_of_nil in H; contradiction].
  - destruct (String.eqb_spec k0 k) as [-> | Hne]; simpl.
    + rewrite elem_of_cons. tauto.
    + rewrite !elem_of_cons, IH. tauto.
Qed.

Lemma count_up_nodup (k : string) (d : list (string * Z)) :
  NoDup d.*1 -> NoDup (count_up k d).*1.
Proof.
  induction d as [ | [k0 n0] d IH]; simpl; intros Hd.
  - apply NoDup_singleton.
  - apply NoDup_cons in Hd as [Hk0 Hd].
    destruct (String.eqb_spec k0 k) as [-> | Hne]; simpl.
    + apply NoDup_cons. split; assumption.
    + apply NoDup_cons. split; [ | apply IH, Hd].
      rewrite count_up_keys. intros [H | H]; [congruence | contradiction].
Qed.

Lemma count_of_count_up (k k' : string) (d : list (string * Z)) :
  count_of (count_up k d) k'
  = count_of d k' + (if String.eqb k' k then 1 else 0).
Proof.
  induction d as [ | [k0 n0] d IH]; simpl.
  - rewrite String.eqb_sym. destruct (String.eqb k' k); reflexivity.
  - destruct (String.eqb_spec k0 k) as [-> | Hne]; simpl.
    + rewrite (String.eqb_sym k' k). destruct (String.eqb k k'); lia.
    + destruct (String.eqb_spec k0 k') as [-> | Hne'].
      * destruct (String.eqb_spec k' k); [congruence | lia].
      * exact IH.
Qed.

Lemma count_of_entry (d : list (string * Z)) (k : string) (n : Z) :
  NoDup d.*1 -> (k, n) ∈ d -> count_of d k = n.
Proof.
  induction d as [ | [k0 n0] d IH]; simpl; intros Hd Hin.
  - apply not_elem_of_nil in Hin. contradiction.
  - apply NoDup_cons in Hd as [Hk0 Hd].
    apply elem_of_cons in Hin as [Heq | Hin].
    + inversion Heq; subst. rewrite String.eqb_refl. reflexivity.
    + destruct (String.eqb_spec k0 k) as [-> | Hne].
      * exfalso. apply Hk0. apply list_elem_of_fmap.
        exists (k, n). split; [reflexivity | exact Hin].
      * apply IH; assumption.
Qed.

(** The counting loops visit the mentions one after the other. *)
Lemma count_all_flat (field : NewsArticle -> list string)
    (articles : list NewsArticle) (d : list (string * Z)) :
  foldl (fun d article => foldl (fun d k => count_up k d) d (field article))
    d articles
  = foldl (fun d k => count_up k d) d (concat (field <$> articles)).
Proof.
  revert d. induction articles as [ | a articles IH]; intros d; simpl.
  - reflexivity.
  - rewrite foldl_app. apply IH.
Qed.

(** After the mentions [flat] the dict holds each mentioned key once, with
    the number of its mentions. *)
Lemma tally_spec (flat : list string) :
  let d := foldl (fun d k => count_up k d) [] flat in
  NoDup d.*1
  /\ (forall k, k ∈ d.*1 <-> k ∈ flat)
  /\ (forall k, count_of d k
                = Z.of_nat (length (List.filter (String.eqb k) flat))).
Proof.
  induction flat as [ | x flat IH] using rev_ind; simpl.
  - split; [constructor | ]. split; [reflexivity | reflexivity].
  - rewrite foldl_app. simpl.
    destruct IH as (Hnodup & Hkeys & Hcount).
    split; [apply count_up_nodup, Hnodup | ]. split.
    + intros k. rewrite count_up_keys, elem_of_app, list_elem_of_singleton, Hkeys.
      tauto.
    + intros k. rewrite count_of_count_up, Hcount, List.filter_app, length_app.
      simpl. destruct (String.eqb k x); simpl; lia.
Qed.

Lemma sorted_keys (m : string -> Z) (sorted : list (string * Z)) :
  (forall p, p ∈ sorted -> p.2 = m p.1) ->
  StronglySorted (fun p q => q.2 <= p.2) sorted ->
  StronglySorted (fun k1 k2 => m k2 <= m k1) sorted.*1.
Proof.
  intros Hm Hsorted.
  induction Hsorted as [ | p l Hl IH Hp]; simpl; constructor.
  - apply IH. intros q Hq. apply Hm, elem_of_cons. right. exact Hq.
  - rewrite Forall_fmap. rewrite Forall_forall in Hp. apply Forall_forall.
    intros q Hq. simpl.
    rewrite <- (Hm p) by (apply elem_of_cons; left; reflexivity).
    rewrite <- (Hm q) by (apply elem_of_cons; right; exact Hq).
    apply Hp, Hq.
Qed.

Lemma not_mentioned (k : string) (flat : list string) :
  k ∉ flat -> List.filter (String.eqb k) flat = [].
Proof.
  induction flat as [ | x flat IH]; simpl; intros Hk; [reflexivity | ].
  destruct (String.eqb_spec k x) as [-> | _].
  - exfalso. apply Hk, elem_of_cons. left. reflexivity.
  - apply IH. intros Hin. apply Hk, elem_of_cons. right. exact Hin.
Qed.

(** The ranking of the keys of a field: at most [n] keys, each once and
    each mentioned by an article, ordered by the number of their mentions,
    and no key that is left out is mentioned more often than a key of the
    ranking. *)
Lemma ranking_of_mentions (field : NewsArticle -> list string)
    (articles : list NewsArticle) (n : nat) :
  let top := ranked (count_all field articles) n in
  (length top <= n)%nat
  /\ NoDup top
  /\ (forall k, k ∈ top -> exists a, a ∈ articles /\ k ∈ field a)
  /\ StronglySorted
       (fun k1 k2 => mentions field articles k2 <= mentions field articles k1)
       top
  /\ (forall k k', k ∈ top -> k' ∉ top ->
        mentions field articles k' <= mentions field articles k).
Proof.
  unfold ranked, count_all. rewrite count_all_flat.
  set (flat := concat (field <$> articles)).
  destruct (tally_spec flat) as (Hnodup & Hkeys & Hcount).
  set (d := foldl (fun d k => count_up k d) [] flat) in *.
  assert ((sort_desc snd d).*1 ≡ₚ d.*1) as Hperm
    by (rewrite sort_desc_perm; reflexivity).
  assert (forall p, p ∈ sort_desc snd d -> p.2 = mentions field articles p.1)
    as Hvalue.
  { intros [k v] Hp. rewrite sort_desc_perm in Hp. simpl.
    rewrite <- (count_of_entry d k v Hnodup Hp). apply Hcount. }
  assert (StronglySorted
            (fun k1 k2 => mentions field articles k2 <= mentions field articles k1)
            (sort_desc snd d).*1) as Hsorted.
  { apply sorted_keys; [exact Hvalue | ].
    apply (sort_desc_sorted (A := string * Z) snd). }
  split; [rewrite length_take; lia | ]. split; [ | split; [ | split]].
  - eapply sublist_NoDup; [ | apply sublist_take].
    rewrite Hperm. exact Hnodup.
  - intros k Hk. apply subseteq_take in Hk. rewrite Hperm in Hk.
    apply Hkeys in Hk. unfold flat in Hk.
    apply list_elem_of_In, in_concat in Hk as (l & Hl & Hk).
    apply list_elem_of_In, list_elem_of_fmap in Hl as (a & -> & Ha).
    exists a. split; [exact Ha | apply list_elem_of_In, Hk].
  - rewrite <- (take_drop n (sort_desc snd d).*1) in Hsorted.
    apply StronglySorted_app_1_l in Hsorted. exact Hsorted.
  - intros k k' Hk Hk'.
    destruct (decide (k' ∈ flat)) as [Hin | Hout].
    + apply Hkeys in Hin. rewrite <- Hperm in Hin.
      rewrite <- (take_drop n (sort_desc snd d).*1) in Hin, Hsorted.
      apply elem_of_app in Hin as [Hin | Hin]; [contradiction | ].
      exact (StronglySorted_app_1_elem_of _ _ _ _ _ Hsorted Hk Hin).
    + unfold mentions at 1. fold flat. rewrite (not_mentioned _ _ Hout).
      unfold mentions. simpl. lia.
Qed.

(** The rankings of a snapshot: [trending_symbols] holds at most ten
    symbols and [key_themes] at most five categories, each once and each
    taken from an article, the most mentioned first; a symbol or category
    that is left out is not mentioned more often than one that is listed. *)
Theorem snapshot_rankings (articles : list NewsArticle) (now : datetime) :
  let news := _build_market_news articles now in
  ((length (trending_symbols news) <= 10)%nat
   /\ NoDup (trending_symbols news)
   /\ (forall k, k ∈ trending_symbols news ->
         exists a, a ∈ articles /\ k ∈ symbols a)
   /\ StronglySorted
        (fun k1 k2 => mentions symbols articles k2 <= mentions symbols articles k1)
        (trending_symbols news)
   /\ (forall k k', k ∈ trending_symbols news -> k' ∉ trending_symbols news ->
         mentions symbols articles k' <= mentions symbols articles k))
  /\ ((length (key_themes news) <= 5)%nat
      /\ NoDup (key_themes news)
      /\ (forall k, k ∈ key_themes news ->
            exists a, a ∈ articles /\ k ∈ categories a)
      /\ StronglySorted
           (fun k1 k2 =>
              mentions categories articles k2 <= mentions categories articles k1)
           (key_themes news)
      /\ (forall k k', k ∈ key_themes news -> k' ∉ key_themes news ->
            mentions categories articles k' <= mentions categories articles k)).
Proof.
  split.
  - exact (ranking_of_mentions symbols articles 10).
  - exact (ranking_of_mentions categories articles 5).
Qed.

End NewsMoreFacts.

(** ** The digest and the defaults of the analysis *)

Module AnalyzerMoreFacts.
Import News NewsMore Analyzer AnalyzerMore.

Lemma length_append (a b : string) :
  String.length (a +:+ b) = (String.length a + String.length b)%nat.
Proof. induction a as [ | c a IH]; simpl; [reflexivity | rewrite IH; reflexivity]. Qed.

Lemma substring_all (s : string) : substring 0 (String.length s) s = s.
Proof. induction s as [ | c s IH]; simpl; [reflexivity | rewrite IH; reflexivity]. Qed.

Lemma substring_head (a b : string) : substring 0 (String.length a) (a +:+ b) = a.
Proof. induction a as [ | c a IH]; simpl; [destruct b; reflexivity | rewrite IH; reflexivity]. Qed.

Lemma substring_tail (a b : string) (n m : nat) :
  substring (String.length a + n) m (a +:+ b) = substring n m b.
Proof. induction a as [ | c a IH]; simpl; [reflexivity | exact IH]. Qed.

Lemma prefix_here (sep rest : string) : String.prefix sep (sep +:+ rest) = true.
Proof.
  induction sep as [ | c sep IH]; simpl; [destruct rest; reflexivity | ].
  destruct (ascii_dec c c); [exact IH | congruence].
Qed.

Lemma index_here (sep rest : string) :
  sep <> EmptyString -> index 0 sep (sep +:+ rest) = Some 0%nat.
Proof.
  intros Hsep. destruct sep as [ | c sep]; [congruence | ].
  pose proof (prefix_here (String c sep) rest) as H.
  simpl in *. rewrite H. reflexivity.
Qed.

Lemma index_skip (sep' pre rest : string) :
  no_backtick pre = true ->
  String.index 0 (String "`" sep') (pre +:+ String "`" rest)
  = (fun i => (String.length pre + i)%nat)
      <$> String.index 0 (String "`" sep') (String "`" rest).
Proof.
  intros Hpre.
  remember (String.index 0 (String "`" sep') (String "`" rest)) as r eqn:Hr.
  induction pre as [ | c pre IH].
  - change (EmptyString +:+ String "`" rest) with (String "`" rest).
    rewrite <- Hr. destruct r; reflexivity.
  - simpl in Hpre. apply andb_true_iff in Hpre as [Hc Hpre].
    apply negb_true_iff, Ascii.eqb_neq in Hc.
    change (String c pre +:+ String "`" rest)
      with (String c (pre +:+ String "`" rest)).
    cbn [String.index String.prefix].
    destruct (ascii_dec "`" c) as [E | _]; [symmetry in E; contradiction | ].
    rewrite (IH Hpre). destruct r; reflexivity.
Qed.

Lemma index_none (sep' s : string) :
  no_backtick s = true -> String.index 0 (String "`" sep') s = None.
Proof.
  intros Hs. induction s as [ | c s IH]; [reflexivity | ].
  simpl in Hs. apply andb_true_iff in Hs as [Hc Hs].
  apply negb_true_iff, Ascii.eqb_neq in Hc.
  cbn [String.index String.prefix].
  destruct (ascii_dec "`" c) as [E | _]; [symmetry in E; contradiction | ].
  rewrite (IH Hs). reflexivity.
Qed.

(** The first piece of a split. *)
Lemma split_aux_first (fuel : nat) (sep' pre rest : string) :
  no_backtick pre = true ->
  split_aux (S fuel) (String "`" sep') (pre +:+ String "`" sep' +:+ rest)
  = pre :: split_aux fuel (String "`" sep') rest.
Proof.
  intros Hpre.
  cbn [split_aux].
  change (String "`" sep' +:+ rest) with (String "`" (sep' +:+ rest)).
  rewrite (index_skip sep' pre (sep' +:+ rest) Hpre).
  change (String "`" (sep' +:+ rest)) with (String "`" sep' +:+ rest).
  rewrite (index_here (String "`" sep') rest) by discriminate.
  cbn [fmap option_fmap option_map].
  rewrite Nat.add_0_r, substring_head. f_equal. f_equal.
  rewrite !length_append.
  replace (String.length pre + String.length (String "`" sep'))%nat
    with (String.length pre + (String.length (String "`" sep') + 0))%nat by lia.
  rewrite substring_tail, substring_tail.
  replace (_ - _)%nat with (String.length rest) by lia.
  apply substring_all.
Qed.

Lemma index_json_after_fence (post : string) :
  no_backtick post = true ->
  String.index 0 "```json" ("```" +:+ post)
  = if String.prefix "json" post then Some 0%nat else None.
Proof.
  intros Hpost.
  change ("```" +:+ post) with (String "`" (String "`" (String "`" post))).
  cbn [String.index String.prefix].
  destruct (ascii_dec "`" "`") as [_ | E]; [ | congruence].
  change (String.prefix "json" post) with (String.prefix "json" post).
  destruct (String.prefix "json" post); [reflexivity | ].
  rewrite (index_none "``json" post Hpost).
  destruct post as [ | c post]; [reflexivity | ].
  simpl in Hpost. apply andb_true_iff in Hpost as [Hc _].
  apply negb_true_iff, Ascii.eqb_neq in Hc.
  cbn [String.prefix].
  destruct (ascii_dec "`" c) as [E | _]; [symmetry in E; contradiction | ].
  reflexivity.
Qed.

Lemma split_aux_none (fuel : nat) (sep' s : string) :
  no_backtick s = true -> split_aux fuel (String "`" sep') s = [s].
Proof.
  intros Hs. destruct fuel; [reflexivity | ].
  cbn [split_aux]. rewrite (index_none sep' s Hs). reflexivity.
Qed.

Lemma contains_fence (sep' pre rest : string) :
  no_backtick pre = true ->
  contains (String "`" sep') (pre +:+ String "`" sep' +:+ rest) = true.
Proof.
  intros Hpre. unfold contains.
  change (String "`" sep' +:+ rest) with (String "`" (sep' +:+ rest)).
  rewrite (index_skip sep' pre (sep' +:+ rest) Hpre).
  change (String "`" (sep' +:+ rest)) with (String "`" sep' +:+ rest).
  rewrite (index_here (String "`" sep') rest) by discriminate.
  reflexivity.
Qed.

Lemma split_first (sep' pre rest : string) :
  no_backtick pre = true ->
  split (String "`" sep') (pre +:+ String "`" sep' +:+ rest)
  = pre :: split_aux (String.length (pre +:+ String "`" sep' +:+ rest))
             (String "`" sep') rest.
Proof. intros Hpre. unfold split. apply split_aux_first. exact Hpre. Qed.

Lemma length_fenced (pre sep' rest : string) :
  exists n, String.length (pre +:+ String "`" sep' +:+ rest) = S n.
Proof.
  rewrite length_append. simpl String.length. rewrite Nat.add_succ_r.
  eexists. reflexivity.
Qed.

Lemma unfence_fenced (pre body post : string) :
  no_backtick pre = true -> no_backtick body = true ->
  no_backtick post = true ->
  unfence (pre +:+ "```json" +:+ body +:+ "```" +:+ post) = Return body
  /\ (contains "```json" (pre +:+ "```" +:+ body +:+ "```" +:+ post) = false ->
      unfence (pre +:+ "```" +:+ body +:+ "```" +:+ post) = Return body)
  /\ unfence pre = Return pre.
Proof.
  intros Hpre Hbody Hpost. split; [ | split].
  - unfold unfence.
    rewrite (contains_fence "``json" pre _ Hpre).
    rewrite (split_first "``json" pre _ Hpre).
    destruct (length_fenced pre "``json" (body +:+ "```" +:+ post)) as [n ->].
    cbn [split_aux].
    change ("```" +:+ post) with (String "`" ("``" +:+ post)).
    rewrite (index_skip "``json" body ("``" +:+ post) Hbody).
    change (String "`" ("``" +:+ post)) with ("```" +:+ post).
    rewrite (index_json_after_fence post Hpost).
    destruct (String.prefix "json" post).
    + cbn [fmap option_fmap option_map item lookup list_lookup mbind result_bind].
      rewrite Nat.add_0_r, substring_head.
      unfold split. rewrite (split_aux_none _ "``" body Hbody). reflexivity.
    + cbn [fmap option_fmap option_map item lookup list_lookup mbind result_bind].
      rewrite (split_first "``" body post Hbody). reflexivity.
  - intros Hjson. unfold unfence. rewrite Hjson.
    rewrite (contains_fence "``" pre _ Hpre).
    rewrite (split_first "``" pre _ Hpre).
    destruct (length_fenced pre "``" (body +:+ "```" +:+ post)) as [n ->].
    rewrite (split_aux_first n "``" body post Hbody).
    cbn [item lookup list_lookup mbind result_bind].
    unfold split. rewrite (split_aux_none _ "``" body Hbody). reflexivity.
  - unfold unfence, contains.
    rewrite (index_none "``json" pre Hpre), (index_none "``" pre Hpre).
    reflexivity.
Qed.

(** The digest of a fused snapshot holds five summary lines and at most 25
    headlines: those of the first, that is the newest, articles of the
    snapshot, in their order. *)
Theorem digest_is_bounded (all_articles unique : list NewsArticle)
    (built now : datetime) (lines : list string) :
  _deduplicate all_articles = Return unique ->
  let news := _build_market_news unique built in
  digest_lines news 25 now = Return lines ->
  exists k : nat,
    (k <= 25)%nat
    /\ drop 5 lines = article_line <$> take k (articles news)
    /\ length lines = (5 + k)%nat
    /\ (forall a, a ∈ take k (articles news) ->
          now - hours 48 < instant (published_at a)).
Proof.
  intros Hret news Hlines. unfold digest_lines in Hlines.
  destruct (get_recent news 48 now) as [recent_all | e] eqn:Hall;
    [ | discriminate].
  cbn [mbind result_bind mret result_ret] in Hlines.
  injection Hlines as <-.
  apply NewsMoreFacts.get_recent_return in Hall as [Hall _].
  destruct (NewsMoreFacts.recent_prefix (now - hours 48) (articles news))
    as [k Hk].
  { exact (NewsFacts.deduplicate_sorted _ _ Hret). }
  assert (recent_all = take k (articles news)) as Hrecent
    by (rewrite Hall; exact Hk).
  exists (Nat.min 25 (Nat.min k (length (articles news)))).
  assert (take 25 (take k (articles news))
          = take (Nat.min 25 (Nat.min k (length (articles news)))) (articles news))
    as Htake.
  { rewrite take_take.
    destruct (Nat.le_ge_cases k (length (articles news))) as [Hle | Hge].
    - f_equal. lia.
    - destruct (Nat.le_ge_cases 25 (length (articles news))) as [Hle' | Hge'].
      + f_equal. lia.
      + rewrite !take_ge by lia. reflexivity. }
  rewrite Hrecent, Htake.
  split; [lia | ]. split; [reflexivity | ]. split.
  - cbn [length]. rewrite length_fmap, length_take. lia.
  - intros a Ha. rewrite <- Htake, <- Hrecent in Ha.
    apply subseteq_take in Ha. rewrite Hall in Ha.
    apply list_elem_of_In, filter_In in Ha as [_ Ha].
    apply Z.ltb_lt in Ha. exact Ha.
Qed.

Lemma digest_is_bounded_witness :
  _deduplicate [article "B" 1 None; article "A" 3 None]
  = Return [article "A" 3 None; article "B" 1 None]
  /\ (exists lines,
        digest_lines
          (_build_market_news [article "A" 3 None; article "B" 1 None] 0) 25 2
        = Return lines
        /\ length lines = 7%nat)
  /\ exists k : nat,
       (k <= 25)%nat
       /\ [article_line (article "A" 3 None); article_line (article "B" 1 None)]
          = article_line <$> take k [article "A" 3 None; article "B" 1 None].
Proof.
  assert (_deduplicate [article "B" 1 None; article "A" 3 None]
          = Return [article "A" 3 None; article "B" 1 None]) as Hret
    by (vm_compute; reflexivity).
  split; [exact Hret | ].
  split; [eexists; split; vm_compute; reflexivity | ].
  destruct (digest_is_bounded [article "B" 1 None; article "A" 3 None]
              [article "A" 3 None; article "B" 1 None] 0 2 _ Hret eq_refl)
    as (k & Hk & Hlines & _).
  exists k. split; [exact Hk | exact Hlines].
Defined.

(** A snapshot that holds an aware datetime, as every article that
    NewsAPI delivers has one, has no digest: [get_recent] compares the
    datetimes with the naive clock, so it raises [TypeError] for every
    window, and [_format_news_for_analysis] with it. *)
Theorem aware_snapshot_has_no_digest (news : MarketNews) (now : datetime)
    (a : NewsArticle) :
  a ∈ articles news ->
  aware (published_at a) = true ->
  (forall n, get_recent news n now = Raise MIXED_DATETIMES)
  /\ _format_news_for_analysis news now = Raise MIXED_DATETIMES.
Proof.
  intros Ha Haware.
  assert (forall n, get_recent news n now = Raise MIXED_DATETIMES) as Hraise.
  { intros n. unfold get_recent. rewrite NewsMoreFacts.published_after_spec.
    assert (forallb (fun a => negb (aware (published_at a))) (articles news)
            = false) as ->; [ | reflexivity].
    apply not_true_iff_false. intros Hall.
    rewrite forallb_forall in Hall.
    specialize (Hall a (proj1 (list_elem_of_In _ _) Ha)).
    rewrite Haware in Hall. discriminate Hall. }
  split; [exact Hraise | ].
  unfold _format_news_for_analysis, digest_lines. rewrite Hraise. reflexivity.
Qed.

Lemma aware_snapshot_has_no_digest_witness :
  get_market_news aggregator_newsapi false true (env_newsapi_only 1)
  = (Return (_build_market_news [report_newsapi] 1),
     {| config := config_newsapi;
        _clients := _initialize_clients config_newsapi;
        _cache := {[cache_key := (1, [report_newsapi])]};
        _cache_ttl := minutes 5 |},
     [newsapi_get_top_headlines; rss_get_all_feeds])
  /\ _format_news_for_analysis (_build_market_news [report_newsapi] 1) 2
     = Raise MIXED_DATETIMES.
Proof.
  split; [vm_compute; reflexivity | ].
  apply (aware_snapshot_has_no_digest (_build_market_news [report_newsapi] 1) 2
           report_newsapi).
  - apply elem_of_cons. left. reflexivity.
  - reflexivity.
Defined.

Section Oracle.
Variable json_loads : string -> result pyval.
Variable float_of_str : string -> result float.

(** An object that lacks the checked keys is completed with the defaults
    of the code, not replaced by the fallback: the regime is RANGE_BOUND,
    the confidence and the position size modifier are 0.5 and there is no
    sector recommendation; every other field is the one of the reply, or
    its default when the reply lacks it. *)
Theorem missing_fields_get_defaults (response text : string)
    (d : list (string * pyval)) (market_news : MarketNews) (now : datetime) :
  unfence response = Return text ->
  json_loads (strip text) = Return (PDict d) ->
  lookup_item "regime" d = None ->
  lookup_item "sector_recommendations" d = None ->
  lookup_item "confidence" d = None ->
  lookup_item "position_size_modifier" d = None ->
  _parse_response json_loads float_of_str response market_news now
  = {| regime := RANGE_BOUND;
       confidence := 0.5;
       reasoning := entry d "reasoning" (PStr "");
       recommended_strategy :=
         entry d "recommended_strategy" (PStr "mean_reversion");
       position_size_modifier := 0.5;
       sector_recommendations := [];
       risk_level := entry d "risk_level" (PStr "medium");
       key_risks := entry d "key_risks" (PList []);
       outlook_horizon := entry d "outlook_horizon" (PStr "1-2 Wochen");
       key_events_ahead := entry d "key_events_ahead" (PList []);
       analysis_time := now;
       news_count := Z.of_nat (length (articles market_news)) |}.
Proof.
  intros Htext Hdata Hregime Hsectors Hconfidence Hmodifier.
  unfold _parse_response, try_parse.
  rewrite Htext. simpl. rewrite Hdata. simpl.
  rewrite Hregime, Hsectors, Hconfidence, Hmodifier. reflexivity.
Qed.

(** A reply that wraps its object in a Markdown fence, tagged [json] or
    not, with text before and after and no other backtick, is analysed as
    the fenced text alone would be. *)
Theorem fenced_reply_parsed_as_body (pre body post : string)
    (market_news : MarketNews) (now : datetime) :
  no_backtick pre = true -> no_backtick body = true ->
  no_backtick post = true ->
  let tagged := pre +:+ "```json" +:+ body +:+ "```" +:+ post in
  let plain := pre +:+ "```" +:+ body +:+ "```" +:+ post in
  (unfence tagged = Return body
   /\ _parse_response json_loads float_of_str tagged market_news now
      = _parse_response json_loads float_of_str body market_news now)
  /\ (contains "```json" plain = false ->
      unfence plain = Return body
      /\ _parse_response json_loads float_of_str plain market_news now
         = _parse_response json_loads float_of_str body market_news now).
Proof.
  intros Hpre Hbody Hpost tagged plain.
  destruct (unfence_fenced pre body post Hpre Hbody Hpost)
    as (Htagged & Hplain & _).
  destruct (unfence_fenced body body body Hbody Hbody Hbody) as (_ & _ & Hself).
  split.
  - split; [exact Htagged | ].
    unfold _parse_response, try_parse. fold tagged in Htagged.
    rewrite Htagged, Hself. reflexivity.
  - intros Hjson. specialize (Hplain Hjson). split; [exact Hplain | ].
    unfold _parse_response, try_parse. fold plain in Hplain.
    rewrite Hplain, Hself. reflexivity.
Qed.

End Oracle.

Lemma fenced_reply_parsed_as_body_witness :
  unfence "Antwort: ```json {} ``` Ende" = Return " {} "
  /\ unfence "``` {} ```" = Return " {} "
  /\ regime (_parse_response example_loads_empty example_float_of_str
               "``` {} ```" (_build_market_news [] 0) 0)
     = RANGE_BOUND.
Proof.
  pose proof (fenced_reply_parsed_as_body example_loads_empty
                example_float_of_str "Antwort: " " {} " " Ende"
                (_build_market_news [] 0) 0 eq_refl eq_refl eq_refl) as Htagged.
  pose proof (fenced_reply_parsed_as_body example_loads_empty
                example_float_of_str "" " {} " ""
                (_build_market_news [] 0) 0 eq_refl eq_refl eq_refl) as Hplain.
  split; [exact (proj1 (proj1 Htagged)) | ].
  split; [exact (proj1 (proj2 Hplain eq_refl)) | ].
  etransitivity;
    [exact (f_equal regime (proj2 (proj2 Hplain eq_refl)))
    | vm_compute; reflexivity].
Defined.

Lemma missing_fields_get_defaults_witness :
  let analysis :=
    _parse_response example_loads_empty example_float_of_str "```json {} ```"
      (_build_market_news [] 0) 0 in
  regime analysis = RANGE_BOUND
  /\ confidence analysis = 0.5%float
  /\ recommended_strategy analysis = PStr "mean_reversion"
  /\ position_size_modifier analysis = 0.5%float
  /\ risk_level analysis = PStr "medium".
Proof.
  intros analysis. unfold analysis.
  rewrite (missing_fields_get_defaults example_loads_empty example_float_of_str
             "```json {} ```" " {} " [] (_build_market_news [] 0) 0
             ltac:(vm_compute; reflexivity) ltac:(vm_compute; reflexivity)
             eq_refl eq_refl eq_refl eq_refl).
  repeat split.
Defined.

End AnalyzerMoreFacts.
